(** * Glyph exporter ([scripts/export_glyphs.py]): column packing, range
      parsing and record emission.

    The development embeds the exporter shallowly.  Python [int] is [Z];
    the command-line text ([args.range]) is a [string] whose characters are
    the code points 0..255; text that is written out (it may hold any
    [chr(u)]) is a list of code points.  The font object of Pillow is a
    record of the four capabilities the script calls.  Exceptions are an
    explicit [result] type threaded with a small monad. *)

From Stdlib Require Import ZArith List String Ascii QArith Qround Lia Bool Sorted.
Import ListNotations.
Open Scope string_scope.
Open Scope Z_scope.

(** ** Exceptions *)

Inductive exn : Type :=
| ValueError
| OverflowError
| UnicodeEncodeError.

Inductive result (A : Type) : Type :=
| Ok (a : A)
| Raise (e : exn).
Arguments Ok {A} a.
Arguments Raise {A} e.

Definition bind {A B} (r : result A) (k : A -> result B) : result B :=
  match r with
  | Ok a => k a
  | Raise e => Raise e
  end.

Notation "x <- c1 ;; c2" := (bind c1 (fun x => c2))
  (at level 61, c1 at next level, right associativity).

(** A comprehension [[f(x) for x in l]] whose body may raise: the first
    exception escapes. *)
Fixpoint for_each {A B} (f : A -> result B) (l : list A) : result (list B) :=
  match l with
  | [] => Ok []
  | x :: l' => y <- f x ;; ys <- for_each f l' ;; Ok (y :: ys)
  end.

(** ** Python built-ins used by the script *)

Module Py.

(** [c in s] for a one-character needle. *)
Fixpoint contains (c : ascii) (s : string) : bool :=
  match s with
  | EmptyString => false
  | String d s' => if Ascii.eqb d c then true else contains c s'
  end.

(** [s.count(c)] for a one-character needle. *)
Fixpoint count (c : ascii) (s : string) : nat :=
  match s with
  | EmptyString => O
  | String d s' => if Ascii.eqb d c then S (count c s') else count c s'
  end.

(** [s.split(sep)] for a one-character separator: never empty, n separators
    give n+1 fields, empty fields are kept. *)
Fixpoint split (sep : ascii) (s : string) : list string :=
  match s with
  | EmptyString => [EmptyString]
  | String d s' =>
      if Ascii.eqb d sep then EmptyString :: split sep s'
      else match split sep s' with
           | tok :: rest => String d tok :: rest
           | [] => [String d EmptyString]
           end
  end.

(** [sep.join(l)]. *)
Fixpoint join (sep : string) (l : list string) : string :=
  match l with
  | [] => EmptyString
  | [x] => x
  | x :: l' => (x ++ sep ++ join sep l')%string
  end.

Definition code (c : ascii) : Z := Z.of_N (N_of_ascii c).

(** Whitespace of [str.strip()] among the code points 0..255:
    TAB LF VT FF CR, FS GS RS US, space, NEL and NBSP. *)
Definition isspace (c : ascii) : bool :=
  let n := code c in
  ((9 <=? n) && (n <=? 13)) || ((28 <=? n) && (n <=? 32))
  || (n =? 133) || (n =? 160).

(** Whitespace skipped by [int(str, base)]: the C-locale blanks, and NEL and
    NBSP, which the conversion maps to a blank first.  FS..US are not
    skipped. *)
Definition int_isspace (c : ascii) : bool :=
  let n := code c in
  ((9 <=? n) && (n <=? 13)) || (n =? 32) || (n =? 133) || (n =? 160).

Fixpoint lstrip (s : string) : string :=
  match s with
  | EmptyString => EmptyString
  | String c s' => if isspace c then lstrip s' else s
  end.

Fixpoint rstrip (s : string) : string :=
  match s with
  | EmptyString => EmptyString
  | String c s' =>
      match rstrip s' with
      | EmptyString => if isspace c then EmptyString else String c EmptyString
      | r => String c r
      end
  end.

Definition strip (s : string) : string := rstrip (lstrip s).

(** Truth value of a string: non-empty. *)
Definition truthy (s : string) : bool :=
  match s with EmptyString => false | _ => true end.

(** Value of a character as a digit in bases up to 36. *)
Definition digit_value (c : ascii) : option Z :=
  let n := code c in
  if (48 <=? n) && (n <=? 57) then Some (n - 48)
  else if (97 <=? n) && (n <=? 122) then Some (n - 87)
  else if (65 <=? n) && (n <=? 90) then Some (n - 55)
  else None.

(** The digit scan of [int]: digits of the base with single underscores
    between them.  [prev] tells that the previous character was an
    underscore.  Returns the value, the number of digits read and the rest
    of the text; [None] on a doubled or trailing underscore. *)
Fixpoint scan_digits (base : Z) (s : string) (prev : bool) (acc : Z) (n : nat)
  : option (Z * nat * string) :=
  match s with
  | EmptyString => if prev then None else Some (acc, n, EmptyString)
  | String c s' =>
      if Ascii.eqb c "_" then
        if prev then None else scan_digits base s' true acc n
      else
        match digit_value c with
        | Some d =>
            if d <? base then scan_digits base s' false (acc * base + d) (S n)
            else if prev then None else Some (acc, n, s)
        | None => if prev then None else Some (acc, n, s)
        end
  end.

Fixpoint skip_space (s : string) : string :=
  match s with
  | EmptyString => EmptyString
  | String c s' => if int_isspace c then skip_space s' else s
  end.

(** Base selection of [int(s, 0)] after the sign: the prefix decides; a
    leading zero without a prefix is decimal but then only zero is legal. *)
Definition detect_base (s : string) : Z * bool :=
  match s with
  | String z r =>
      if Ascii.eqb z "0" then
        match r with
        | String c _ =>
            if Ascii.eqb c "x" || Ascii.eqb c "X" then (16, false)
            else if Ascii.eqb c "o" || Ascii.eqb c "O" then (8, false)
            else if Ascii.eqb c "b" || Ascii.eqb c "B" then (2, false)
            else (10, true)
        | EmptyString => (10, true)
        end
      else (10, false)
  | EmptyString => (10, false)
  end.

(** Skips the prefix that belongs to [base], and one underscore after it. *)
Definition skip_prefix (base : Z) (s : string) : string :=
  match s with
  | String z (String c s') =>
      if Ascii.eqb z "0"
         && (((base =? 16) && (Ascii.eqb c "x" || Ascii.eqb c "X"))
             || ((base =? 8) && (Ascii.eqb c "o" || Ascii.eqb c "O"))
             || ((base =? 2) && (Ascii.eqb c "b" || Ascii.eqb c "B")))
      then match s' with
           | String u s'' => if Ascii.eqb u "_" then s'' else s'
           | EmptyString => s'
           end
      else s
  | _ => s
  end.

Definition starts_with (c : ascii) (s : string) : bool :=
  match s with
  | String d _ => Ascii.eqb d c
  | EmptyString => false
  end.

Definition tail (s : string) : string :=
  match s with
  | String _ r => r
  | EmptyString => EmptyString
  end.

(** [int(s, base)] for [base] 0 or 2..36: blanks, an optional sign, the
    prefix, digits with single underscores, blanks.  The limit on the number
    of decimal digits of recent interpreters is not modelled. *)
Definition int (s : string) (base : Z) : result Z :=
  let s1 := skip_space s in
  let sign := if starts_with "-" s1 then -1 else 1 in
  let s2 := if starts_with "+" s1 || starts_with "-" s1 then tail s1 else s1 in
  let '(b, zero_only) := if base =? 0 then detect_base s2 else (base, false) in
  let s3 := skip_prefix b s2 in
  if starts_with "_" s3 then Raise ValueError
  else
    match scan_digits b s3 false 0 O with
    | None => Raise ValueError
    | Some (v, n, rest) =>
        if zero_only && negb (v =? 0) then Raise ValueError
        else if (n =? 0)%nat then Raise ValueError
        else if truthy (skip_space rest) then Raise ValueError
        else Ok (sign * v)
    end.

(** Digit of a value below 36, lower case as [hex] and [str] print it. *)
Definition digit_char (d : Z) : ascii :=
  ascii_of_N (Z.to_N (if d <? 10 then 48 + d else 87 + d)).

(** Digits of a non-negative number, most significant first, in front of
    [acc].  The fuel bounds the number of digits. *)
Fixpoint to_base (fuel : nat) (base n : Z) (acc : string) : string :=
  match fuel with
  | O => acc
  | S fuel' =>
      if n <? base then String (digit_char n) acc
      else to_base fuel' base (n / base) (String (digit_char (n mod base)) acc)
  end.

Definition digits (base n : Z) : string :=
  to_base (S (Z.to_nat (Z.log2 n))) base n EmptyString.

(** [hex(n)]: lower-case digits, no padding, the sign before the prefix. *)
Definition hex (n : Z) : string :=
  if n <? 0 then ("-0x" ++ digits 16 (- n))%string
  else ("0x" ++ digits 16 n)%string.

(** [str(n)], which is what an f-string field prints for an [int]. *)
Definition str (n : Z) : string :=
  if n <? 0 then ("-" ++ digits 10 (- n))%string
  else digits 10 n.

(** [range(lo, hi)] as the list of its elements. *)
Definition range (lo hi : Z) : list Z :=
  map (fun i => lo + Z.of_nat i) (seq 0 (Z.to_nat (hi - lo))).

(** Text that may hold any character: the list of its code points. *)
Definition text : Type := list Z.

Definition of_str (s : string) : text := map code (list_ascii_of_string s).

(** [chr(u)]: the one-character string is represented by its code point. *)
Definition chr (u : Z) : result Z :=
  if (u <? - 2 ^ 31) || (2 ^ 31 - 1 <? u) then Raise OverflowError
  else if (u <? 0) || (0x10FFFF <? u) then Raise ValueError
  else Ok u.

(** [sep.join(lines)] on texts. *)
Fixpoint join_text (sep : text) (l : list text) : text :=
  match l with
  | [] => []
  | [x] => x
  | x :: l' => (x ++ sep ++ join_text sep l')%list
  end.

(** UTF-8 encoding of one code point; the surrogates have none. *)
Definition utf8_char (c : Z) : result (list Z) :=
  if c <? 0x80 then Ok [c]
  else if c <? 0x800 then Ok [0xC0 + c / 64; 0x80 + c mod 64]
  else if (0xD800 <=? c) && (c <=? 0xDFFF) then Raise UnicodeEncodeError
  else if c <? 0x10000 then
    Ok [0xE0 + c / 4096; 0x80 + (c / 64) mod 64; 0x80 + c mod 64]
  else
    Ok [0xF0 + c / 262144; 0x80 + (c / 4096) mod 64;
        0x80 + (c / 64) mod 64; 0x80 + c mod 64].

(** [t.encode("utf-8")]. *)
Definition encode_utf8 (t : text) : result (list Z) :=
  bs <- for_each utf8_char t ;; Ok (List.concat bs).

End Py.

(** ** The font object and the image it draws into *)

(** What the script asks of a loaded [ImageFont.FreeTypeFont]: the line
    metrics, the advance of a character ([None]: the call raises, as in an
    older Pillow without [getlength]), the size of its box, and which pixels
    [ImageDraw.text] paints for a character anchored at a point. *)
Record FreeTypeFont : Type := {
  getmetrics : Z * Z;
  getlength : Z -> option Q;
  getsize : Z -> Z * Z;
  text_ink : Z -> Z * Z -> Z -> Z -> bool
}.

(** A PIL image: its size (width, height) and the value of pixel (x, y). *)
Record Image : Type := {
  size : Z * Z;
  pixel : Z -> Z -> Z
}.

Definition Image_new (W H fill : Z) : Image :=
  {| size := (W, H); pixel := fun _ _ => fill |}.

Definition draw_text (img : Image) (xy : Z * Z) (ch : Z) (font : FreeTypeFont)
    (fill : Z) : Image :=
  {| size := size img;
     pixel := fun x y =>
       if text_ink font ch xy x y then fill else pixel img x y |}.

(** A two-dimensional numpy array: rows first. *)
Record ndarray : Type := {
  shape0 : nat;
  shape1 : nat;
  item : nat -> nat -> Z
}.

(** [np.array(img)]: one row per scanline. *)
Definition np_array (img : Image) : ndarray :=
  {| shape0 := Z.to_nat (snd (size img));
     shape1 := Z.to_nat (fst (size img));
     item := fun y x => pixel img (Z.of_nat x) (Z.of_nat y) |}.

(** [(arr == 0).astype(np.uint8)]. *)
Definition eq0_uint8 (arr : ndarray) : ndarray :=
  {| shape0 := shape0 arr;
     shape1 := shape1 arr;
     item := fun y x => if item arr y x =? 0 then 1 else 0 |}.

(** [bits[:, x].tolist()]. *)
Definition column (bits : ndarray) (x : nat) : list Z :=
  map (fun y => item bits y x) (seq 0 (shape0 bits)).

(** ** The exporter *)

(** The string of binary digits that [col_to_hex] builds, top row first. *)
Fixpoint bit_string (col_bits : list Z) : string :=
  match col_bits with
  | [] => EmptyString
  | b :: rest =>
      String (if Z.eqb b 0 then "0"%char else "1"%char) (bit_string rest)
  end.

(** The integer inside [col_to_hex]: [int(s or '0', 2)]. *)
Definition col_to_int (col_bits : list Z) : result Z :=
  let s := bit_string col_bits in
  Py.int (if Py.truthy s then s else "0") 2.

Definition col_to_hex (col_bits : list Z) : result string :=
  n <- col_to_int col_bits ;; Ok (Py.hex n).

Definition baseline_aligned_cell (font : FreeTypeFont) (ch : Z)
  : ndarray * Z * Z :=
  let '(ascent, descent) := getmetrics font in
  let line_height := ascent + descent in
  let advance :=
    match getlength font ch with
    | Some len => Qceiling len
    | None => Z.max 1 (fst (getsize font ch))
    end in
  let W := Z.max 1 advance in
  let H := Z.max 1 line_height in
  let img := Image_new W H 1 in
  let img := draw_text img (0, ascent) ch font 0 in
  let arr := np_array img in
  let bits := eq0_uint8 arr in
  (bits, W, H).

Definition TAB : Py.text := [9].

Definition emit_setglyph_line (family_name : Py.text) (u : Z) (bits : ndarray)
    (width height : Z) : result Py.text :=
  hex_cols <- for_each (fun x => col_to_hex (column bits x))
                       (seq 0 (shape1 bits)) ;;
  let hexs_str := Py.join ", " hex_cols in
  c <- Py.chr u ;;
  Ok (TAB ++ family_name ++ Py.of_str (".setGlyph(" ++ Py.hex u ++ ", ")
      ++ Py.of_str ("{{" ++ hexs_str ++ "}, " ++ Py.str width ++ ", "
                    ++ Py.str height ++ ", 0, 0}); ")
      ++ Py.of_str ("// Glyph " ++ Py.hex u ++ " - '") ++ [c]
      ++ Py.of_str "'")%list.

(** The test of [main] that sends a spec to the interval branch. *)
Definition is_interval (range : string) : bool :=
  Py.contains "-" range && (Py.count "-" range =? 1)%nat
  && negb (Py.contains "," range).

(** The code point selection of [main]: [cps], as a list. *)
Definition parse_range (range : string) : result (list Z) :=
  if is_interval range then
    match Py.split "-" range with
    | [lo_str; hi_str] =>
        lo <- Py.int lo_str 0 ;;
        hi <- Py.int hi_str 0 ;;
        Ok (Py.range lo (hi + 1))
    | _ => Raise ValueError
    end
  else
    for_each (fun tok => Py.int tok 0)
             (filter (fun tok => Py.truthy (Py.strip tok))
                     (Py.split "," range)).

(** The loop of [main] over the code points. *)
Definition glyph_lines (font : FreeTypeFont) (family : Py.text)
    (cps : list Z) : result (list Py.text) :=
  for_each (fun u =>
              ch <- Py.chr u ;;
              let '(bits, w, h) := baseline_aligned_cell font ch in
              emit_setglyph_line family u bits w h) cps.

(** [main] from the parsed arguments to the bytes written to the output
    file. *)
Definition main (font : FreeTypeFont) (family : Py.text) (range : string)
  : result (list Z) :=
  cps <- parse_range range ;;
  lines <- glyph_lines font family cps ;;
  Py.encode_utf8 (Py.join_text [10] lines).

(** ** Notions used to state the properties *)

(** A token that is empty or holds only whitespace. *)
Fixpoint blank (tok : string) : bool :=
  match tok with
  | EmptyString => true
  | String c tok' => Py.isspace c && blank tok'
  end.

(** A hyphen that comes after the first character of the token that [int]
    does not skip as whitespace: a hyphen that cannot be the sign. *)
Fixpoint inner_hyphen (tok : string) : bool :=
  match tok with
  | EmptyString => false
  | String c tok' =>
      if Py.int_isspace c then inner_hyphen tok' else Py.contains "-" tok'
  end.

(** The number that a string of binary digits denotes, most significant
    digit first; a cell of the column stands for 1 unless it is 0. *)
Definition binary_value (acc : Z) (col_bits : list Z) : Z :=
  fold_left (fun a b => a * 2 + (if b =? 0 then 0 else 1)) col_bits acc.

(** Ink of a cell of the bit matrix. *)
Definition ink (bits : ndarray) (y x : nat) : bool := negb (item bits y x =? 0).

(** The reader of a packed column: row [y] of a column of [height] rows is
    bit [height - 1 - y]. *)
Definition decode_column (height : nat) (n : Z) : list bool :=
  map (fun y => Z.testbit n (Z.of_nat height - 1 - Z.of_nat y)) (seq 0 height).

(** The integers of the columns of a bit matrix, left to right. *)
Definition packed_columns (bits : ndarray) : list Z :=
  map (fun x => binary_value 0 (column bits x)) (seq 0 (shape1 bits)).

(** A code point that stands for a character and has a UTF-8 encoding: in
    the Unicode range and no surrogate. *)
Definition is_scalar_value (u : Z) : bool :=
  (0 <=? u) && (u <=? 0x10FFFF) && negb ((0xD800 <=? u) && (u <=? 0xDFFF)).

(** The shape of a record as the output format words it:
    [<family>.setGlyph(<cp>, {{<col0>, <col1>, ...}, <width>, <height>, 0, 0}); // Glyph <cp> - '<char>'],
    the literals being given as text. *)
Definition record_shape (family : Py.text) (codepoint_literal : string)
    (column_literals : list string) (width height : Z) (char : Z) : Py.text :=
  (family ++ Py.of_str ".setGlyph(" ++ Py.of_str codepoint_literal
   ++ Py.of_str ", {{" ++ Py.of_str (Py.join ", " column_literals)
   ++ Py.of_str "}, " ++ Py.of_str (Py.str width) ++ Py.of_str ", "
   ++ Py.of_str (Py.str height) ++ Py.of_str ", 0, 0}); // Glyph "
   ++ Py.of_str codepoint_literal ++ Py.of_str " - '" ++ [char]
   ++ Py.of_str "'")%list.

(** A hexadecimal literal with the [0x] marker and no padding. *)
Definition hex_literal (n : Z) : string := ("0x" ++ Py.digits 16 n)%string.

(** The line that the exporter is expected to emit for a code point. *)
Definition glyph_record (font : FreeTypeFont) (family : Py.text) (u : Z)
  : Py.text :=
  let '(bits, w, h) := baseline_aligned_cell font u in
  (TAB ++ record_shape family (hex_literal u)
            (map hex_literal (packed_columns bits)) w h u)%list.

(** ** Fonts used as examples *)

(** A font whose line metrics are both zero. *)
Definition flat_font : FreeTypeFont :=
  {| getmetrics := (0, 0);
     getlength := fun _ => Some (1 # 1)%Q;
     getsize := fun _ => (1, 1);
     text_ink := fun _ _ _ _ => false |}.

(** A font object without a working [getlength] (an older Pillow): only the
    box of a character can be measured. *)
Definition legacy_font : FreeTypeFont :=
  {| getmetrics := (3, 1);
     getlength := fun _ => None;
     getsize := fun _ => (4, 4);
     text_ink := fun _ _ x y => (x =? y) |}.

(** A font with fractional advances that paints a diagonal and the
    baseline row. *)
Definition demo_font : FreeTypeFont :=
  {| getmetrics := (3, 1);
     getlength := fun _ => Some (5 # 2)%Q;
     getsize := fun _ => (2, 4);
     text_ink := fun _ xy x y => (x =? y) || (y =? snd xy - 1) |}.

(** A one-pixel bit matrix with ink. *)
Definition dot : ndarray :=
  {| shape0 := 1; shape1 := 1; item := fun _ _ => 1 |}.

(** ** The family name and the output name *)

(** [c.isalnum()] on the code points 0..255: the ASCII letters and digits,
    and in the upper half the letters, the superscript digits and the
    fractions of Latin-1. *)
Definition isalnum (c : ascii) : bool :=
  let n := Py.code c in
  ((48 <=? n) && (n <=? 57)) || ((65 <=? n) && (n <=? 90))
  || ((97 <=? n) && (n <=? 122))
  || (n =? 170) || ((178 <=? n) && (n <=? 179)) || (n =? 181)
  || ((185 <=? n) && (n <=? 186)) || ((188 <=? n) && (n <=? 190))
  || ((192 <=? n) && (n <=? 214)) || ((216 <=? n) && (n <=? 246))
  || ((248 <=? n) && (n <=? 255)).

(** [s.rfind(c)] for a one-character needle: the last index, or -1. *)
Fixpoint rfind (c : ascii) (s : string) : Z :=
  match s with
  | EmptyString => -1
  | String d s' =>
      let r := rfind c s' in
      if 0 <=? r then r + 1 else if Ascii.eqb d c then 0 else -1
  end.

Definition is_path_part (part : string) : bool :=
  negb (String.eqb part "") && negb (String.eqb part ".").

(** [Path(p).name] in the POSIX flavour: the last component, the empty
    components and the single dots being dropped; empty when there is
    none. *)
Definition path_name (p : string) : string :=
  last (filter is_path_part (Py.split "/" p)) EmptyString.

(** [Path(p).stem]: the name without its last suffix; a dot at either end
    of the name starts no suffix. *)
Definition path_stem (p : string) : string :=
  let name := path_name p in
  let i := rfind "." name in
  if (0 <? i) && (i <? Z.of_nat (String.length name) - 1)
  then substring 0 (Z.to_nat i) name
  else name.

Fixpoint map_chars (f : ascii -> ascii) (s : string) : string :=
  match s with
  | EmptyString => EmptyString
  | String c s' => String (f c) (map_chars f s')
  end.

Definition sanitize_family (font_path : string) : string :=
  let base := path_stem font_path in
  map_chars (fun c => if isalnum c then c else "_"%char) base.

(** The default of [main] for the output path, before [Path] is applied. *)
Definition default_out (font : string) (size : Z) : string :=
  (sanitize_family font ++ "_glyphs_" ++ Py.str size ++ "px.txt")%string.

(** ** Further notions used to state the properties *)

(** A code point that UTF-8 can encode: no surrogate. *)
Definition encodable (c : Z) : bool :=
  negb ((0xD800 <=? c) && (c <=? 0xDFFF)).

(** The texts that [main] hands to [int]: the two bounds of an interval
    spec, the non-blank fields of a list spec. *)
Definition tokens (range : string) : list string :=
  if is_interval range then Py.split "-" range
  else filter (fun tok => Py.truthy (Py.strip tok)) (Py.split "," range).

(** A spec made of commas and whitespace only. *)
Fixpoint blank_spec (range : string) : bool :=
  match range with
  | EmptyString => true
  | String c r => (Py.isspace c || Ascii.eqb c ",") && blank_spec r
  end.

(** The characters of a string, as a list. *)
Definition chars (s : string) : list ascii := list_ascii_of_string s.

(** The ink pattern of a column, top row first. *)
Definition ink_pattern (col_bits : list Z) : list bool :=
  map (fun b => negb (b =? 0)) col_bits.

(** What a line says when it is the record of the packed glyph of code
    point [u]: it is what [emit_setglyph_line] returns on the cell of the
    character, it prints the width and the height of that cell and the
    integers of its columns, there are as many columns as the width, and
    every column integer is in [[0, 2^height)] and is what its literal
    reads as. *)
Definition packed_glyph_line (font : FreeTypeFont) (family : Py.text) (u : Z)
    (line : Py.text) : Prop :=
  exists bits width height,
    baseline_aligned_cell font u = (bits, width, height)
    /\ emit_setglyph_line family u bits width height = Ok line
    /\ line = (TAB ++ record_shape family (hex_literal u)
                        (map hex_literal (packed_columns bits))
                        width height u)%list
    /\ Z.of_nat (List.length (packed_columns bits)) = width
    /\ Forall (fun n => 0 <= n < 2 ^ height
                        /\ Py.int (hex_literal n) 0 = Ok n)
              (packed_columns bits).

(** The default limit of CPython 3.11 and later on the number of digits of
    an [int] that [str] and the f-string fields print in decimal: beyond it
    they raise [ValueError].  [Py.str] stands for them below the limit. *)
Definition int_max_str_digits : Z := 4300.

(* ================================================================= *)
(** * Facts about the built-ins *)

Section StringFacts.

Variable sep : ascii.

Lemma contains_app (a b : string) :
  Py.contains sep (a ++ b) = Py.contains sep a || Py.contains sep b.
Proof.
  induction a as [|d a IH]; simpl; [reflexivity|].
  destruct (Ascii.eqb d sep); [reflexivity | exact IH].
Qed.

Lemma count_app (a b : string) :
  Py.count sep (a ++ b) = (Py.count sep a + Py.count sep b)%nat.
Proof.
  induction a as [|d a IH]; simpl; [reflexivity|].
  destruct (Ascii.eqb d sep); simpl; rewrite IH; reflexivity.
Qed.

Lemma count_absent (s : string) :
  Py.contains sep s = false -> Py.count sep s = O.
Proof.
  induction s as [|d s IH]; simpl; [reflexivity|].
  destruct (Ascii.eqb d sep); [discriminate | exact IH].
Qed.

Lemma contains_count (s : string) :
  Py.contains sep s = negb (Py.count sep s =? 0)%nat.
Proof.
  induction s as [|d s IH]; simpl; [reflexivity|].
  destruct (Ascii.eqb d sep); [reflexivity | exact IH].
Qed.

(** [split] never returns the empty list: n separators give n+1 fields. *)
Lemma split_length (s : string) :
  List.length (Py.split sep s) = S (Py.count sep s).
Proof.
  induction s as [|d s IH]; simpl; [reflexivity|].
  destruct (Ascii.eqb d sep); simpl; [now rewrite IH|].
  destruct (Py.split sep s); simpl in *; [discriminate | exact IH].
Qed.

Lemma split_absent (s : string) :
  Py.contains sep s = false -> Py.split sep s = [s].
Proof.
  induction s as [|d s IH]; simpl; [reflexivity|].
  destruct (Ascii.eqb d sep); [discriminate|].
  intros H. rewrite (IH H). reflexivity.
Qed.

Lemma split_app (a b : string) :
  Py.contains sep a = false ->
  Py.split sep (a ++ String sep b) = a :: Py.split sep b.
Proof.
  induction a as [|d a IH]; simpl.
  - intros _. rewrite Ascii.eqb_refl. reflexivity.
  - destruct (Ascii.eqb d sep); [discriminate|].
    intros H. rewrite (IH H). reflexivity.
Qed.

(** Splitting what [join] built gives the fields back. *)
Lemma split_join (toks : list string) :
  toks <> [] ->
  Forall (fun tok => Py.contains sep tok = false) toks ->
  Py.split sep (Py.join (String sep EmptyString) toks) = toks.
Proof.
  induction toks as [|tok toks IH]; [congruence|].
  intros _ Hall. inversion Hall as [|? ? Htok Hrest]; subst.
  destruct toks as [|tok2 toks].
  - simpl. apply split_absent. exact Htok.
  - change (Py.join (String sep EmptyString) (tok :: tok2 :: toks))
      with (tok ++ String sep (Py.join (String sep EmptyString) (tok2 :: toks)))%string.
    rewrite split_app by exact Htok.
    rewrite IH; [reflexivity | discriminate | exact Hrest].
Qed.

Lemma contains_join (toks : list string) :
  (2 <= List.length toks)%nat ->
  Py.contains sep (Py.join (String sep EmptyString) toks) = true.
Proof.
  destruct toks as [|a [|b toks]]; simpl; try lia.
  intros _. rewrite contains_app. simpl. rewrite Ascii.eqb_refl.
  apply orb_true_r.
Qed.

End StringFacts.

(** ** [for_each] *)

Lemma for_each_length {A B} (f : A -> result B) (l : list A) (ys : list B) :
  for_each f l = Ok ys -> List.length ys = List.length l.
Proof.
  revert ys. induction l as [|x l IH]; simpl; intros ys H.
  - injection H as <-. reflexivity.
  - destruct (f x); simpl in H; [|discriminate].
    destruct (for_each f l) as [zs|]; simpl in H; [|discriminate].
    injection H as <-. simpl. f_equal. apply IH. reflexivity.
Qed.

Lemma for_each_total {A B} (f : A -> result B) (g : A -> B) (l : list A) :
  (forall x, In x l -> f x = Ok (g x)) -> for_each f l = Ok (map g l).
Proof.
  induction l as [|x l IH]; simpl; intros H; [reflexivity|].
  rewrite (H x) by (left; reflexivity). simpl.
  rewrite IH by (intros y Hy; apply H; right; exact Hy). reflexivity.
Qed.

(** When the body raises nothing but [e], so does the comprehension as soon
    as one element raises. *)
Lemma for_each_raises {A B} (f : A -> result B) (e : exn) (l : list A) (x : A) :
  (forall y e', f y = Raise e' -> e' = e) ->
  In x l -> f x = Raise e -> for_each f l = Raise e.
Proof.
  intros Hone. induction l as [|y l IH]; simpl; [contradiction|].
  intros [-> | Hin] Hx.
  - rewrite Hx. reflexivity.
  - destruct (f y) eqn:Hy; simpl.
    + rewrite (IH Hin Hx). reflexivity.
    + f_equal. apply (Hone y). exact Hy.
Qed.

(** ** [range] *)

Lemma range_length (lo hi : Z) :
  List.length (Py.range lo hi) = Z.to_nat (hi - lo).
Proof. unfold Py.range. rewrite length_map, length_seq. reflexivity. Qed.

Lemma range_empty (lo hi : Z) : hi <= lo -> Py.range lo hi = [].
Proof.
  intros H. unfold Py.range.
  replace (Z.to_nat (hi - lo)) with O by lia. reflexivity.
Qed.

Lemma range_nth (lo hi : Z) (i : nat) :
  (i < Z.to_nat (hi - lo))%nat -> nth i (Py.range lo hi) 0 = lo + Z.of_nat i.
Proof.
  intros H. unfold Py.range.
  rewrite (nth_indep _ 0 (lo + Z.of_nat 0)) by (rewrite length_map, length_seq; exact H).
  rewrite (map_nth (fun i => lo + Z.of_nat i)), seq_nth by exact H.
  reflexivity.
Qed.

Lemma range_In (lo hi u : Z) : In u (Py.range lo hi) <-> lo <= u < hi.
Proof.
  unfold Py.range. rewrite in_map_iff. split.
  - intros [i [<- Hi]]. apply in_seq in Hi. lia.
  - intros H. exists (Z.to_nat (u - lo)). split; [lia|].
    apply in_seq. lia.
Qed.

Lemma seq_map_sorted (lo : Z) (n start : nat) :
  StronglySorted Z.lt (map (fun i => lo + Z.of_nat i) (seq start n)).
Proof.
  revert start. induction n as [|n IH]; intros start; simpl; constructor.
  - apply IH.
  - apply Forall_forall. intros u Hu. apply in_map_iff in Hu.
    destruct Hu as [i [<- Hi]]. apply in_seq in Hi. lia.
Qed.

Lemma range_sorted (lo hi : Z) : StronglySorted Z.lt (Py.range lo hi).
Proof. apply seq_map_sorted. Qed.

(** ** Whitespace and [strip] *)

Lemma lstrip_blank (s : string) : blank s = true -> Py.lstrip s = EmptyString.
Proof.
  induction s as [|c s IH]; simpl; [reflexivity|].
  destruct (Py.isspace c); simpl; [exact IH | discriminate].
Qed.

Lemma lstrip_not_blank (s : string) :
  blank s = false ->
  exists c r, Py.lstrip s = String c r /\ Py.isspace c = false.
Proof.
  induction s as [|c s IH]; simpl; [discriminate|].
  destruct (Py.isspace c) eqn:Hc; simpl.
  - exact IH.
  - intros _. exists c, s. split; [reflexivity | exact Hc].
Qed.

Lemma rstrip_keeps (c : ascii) (r : string) :
  Py.isspace c = false -> Py.truthy (Py.rstrip (String c r)) = true.
Proof.
  intros Hc. simpl. destruct (Py.rstrip r); [rewrite Hc|]; reflexivity.
Qed.

(** [tok.strip()] is false exactly on the blank tokens. *)
Lemma strip_truthy (tok : string) :
  Py.truthy (Py.strip tok) = negb (blank tok).
Proof.
  unfold Py.strip. destruct (blank tok) eqn:Hb.
  - rewrite (lstrip_blank _ Hb). reflexivity.
  - destruct (lstrip_not_blank _ Hb) as [c [r [-> Hc]]].
    apply rstrip_keeps. exact Hc.
Qed.

(** ** Hyphens and [int] *)

Lemma not_hyphen (c : ascii) (s : string) :
  Ascii.eqb c "-" = false ->
  Py.contains "-" (String c s) = Py.contains "-" s.
Proof. intros H. simpl. rewrite H. reflexivity. Qed.

Lemma eqb_hyphen_cases (c : ascii) :
  Ascii.eqb c "-" = true ->
  Py.int_isspace c = false /\ Py.isspace c = false /\ Py.digit_value c = None
  /\ Ascii.eqb c "_" = false /\ Ascii.eqb c "+" = false.
Proof. intros H. apply Ascii.eqb_eq in H. subst c. repeat split. Qed.

Lemma inner_hyphen_contains (tok : string) :
  inner_hyphen tok = true -> Py.contains "-" tok = true.
Proof.
  induction tok as [|c tok IH]; simpl; [discriminate|].
  destruct (Ascii.eqb c "-"); [reflexivity|].
  destruct (Py.int_isspace c); [exact IH | trivial].
Qed.

Lemma hyphen_not_blank (tok : string) :
  Py.contains "-" tok = true -> blank tok = false.
Proof.
  induction tok as [|c tok IH]; simpl; [discriminate|].
  destruct (Ascii.eqb c "-") eqn:Hc.
  - destruct (eqb_hyphen_cases c Hc) as [_ [-> _]]. reflexivity.
  - intros H. rewrite (IH H). apply andb_false_r.
Qed.

Lemma skip_space_inner (tok : string) :
  inner_hyphen tok = true ->
  exists c r, Py.skip_space tok = String c r
              /\ Py.int_isspace c = false /\ Py.contains "-" r = true.
Proof.
  induction tok as [|c tok IH]; simpl; [discriminate|].
  destruct (Py.int_isspace c) eqn:Hc; [exact IH|].
  intros H. exists c, tok. auto.
Qed.

Lemma skip_space_hyphen (s : string) :
  Py.contains "-" s = true -> Py.truthy (Py.skip_space s) = true.
Proof.
  induction s as [|c s IH]; simpl; [discriminate|].
  destruct (Ascii.eqb c "-") eqn:Hc.
  - destruct (eqb_hyphen_cases c Hc) as [-> _]. reflexivity.
  - intros H. destruct (Py.int_isspace c); [apply IH; exact H | reflexivity].
Qed.

Lemma skip_prefix_hyphen (b : Z) (s : string) :
  Py.contains "-" s = true -> Py.contains "-" (Py.skip_prefix b s) = true.
Proof.
  unfold Py.skip_prefix. destruct s as [|z [|c s']]; try (intros H; exact H).
  destruct (Ascii.eqb z "0" && _) eqn:Hcond; [|intros H; exact H].
  apply andb_prop in Hcond. destruct Hcond as [Hz Hc].
  assert (Hz' : Ascii.eqb z "-" = false).
  { apply Ascii.eqb_eq in Hz. subst z. reflexivity. }
  assert (Hc' : Ascii.eqb c "-" = false).
  { destruct (Ascii.eqb c "-") eqn:E; [|reflexivity].
    apply Ascii.eqb_eq in E. subst c. simpl in Hc.
    rewrite !andb_false_r in Hc. discriminate. }
  rewrite !not_hyphen by assumption.
  destruct s' as [|u s'']; [trivial|].
  destruct (Ascii.eqb u "_") eqn:Hu; [|trivial].
  apply Ascii.eqb_eq in Hu. subst u. simpl. trivial.
Qed.

Lemma scan_digits_hyphen (b : Z) (s : string) :
  forall prev acc n v k rest,
    Py.scan_digits b s prev acc n = Some (v, k, rest) ->
    Py.contains "-" s = true -> Py.contains "-" rest = true.
Proof.
  induction s as [|c s IH]; intros prev acc n v k rest; simpl.
  - discriminate 2.
  - destruct (Ascii.eqb c "-") eqn:Hc.
    + destruct (eqb_hyphen_cases c Hc) as [_ [_ [Hd [Hu _]]]].
      rewrite Hu, Hd. destruct prev; [discriminate|].
      intros H _. injection H as _ _ <-. simpl. rewrite Hc. reflexivity.
    + destruct (Ascii.eqb c "_").
      * destruct prev; [discriminate|]. apply IH.
      * destruct (Py.digit_value c) as [d|].
        -- destruct (d <? b); [apply IH|].
           destruct prev; [discriminate|].
           intros H Hs. injection H as _ _ <-. simpl. rewrite Hc. exact Hs.
        -- destruct prev; [discriminate|].
           intros H Hs. injection H as _ _ <-. simpl. rewrite Hc. exact Hs.
Qed.

(** [int] raises nothing but [ValueError]. *)
Lemma int_raises (s : string) (base : Z) (e : exn) :
  Py.int s base = Raise e -> e = ValueError.
Proof.
  unfold Py.int.
  destruct (if base =? 0 then _ else _) as [b zero_only].
  destruct (Py.starts_with "_" _); [congruence|].
  destruct (Py.scan_digits _ _ _ _ _) as [[[v n] rest]|]; [|congruence].
  destruct (zero_only && _); [congruence|].
  destruct (n =? 0)%nat; [congruence|].
  destruct (Py.truthy _); congruence.
Qed.

(** A hyphen is legal only as the sign: a token with a hyphen further in is
    no integer literal, in any base. *)
Lemma int_inner_hyphen (tok : string) (base : Z) :
  inner_hyphen tok = true -> Py.int tok base = Raise ValueError.
Proof.
  intros H. destruct (skip_space_inner tok H) as [c [r [Hs1 [Hc Hr]]]].
  unfold Py.int. rewrite Hs1.
  set (s2 := if Py.starts_with "+" (String c r) || Py.starts_with "-" (String c r)
             then Py.tail (String c r) else String c r).
  assert (Hs2 : Py.contains "-" s2 = true).
  { subst s2. destruct (_ || _); simpl; [exact Hr|].
    rewrite Hr. destruct (Ascii.eqb c "-"); reflexivity. }
  destruct (if base =? 0 then _ else _) as [b zero_only].
  pose proof (skip_prefix_hyphen b s2 Hs2) as Hs3.
  destruct (Py.starts_with "_" _); [reflexivity|].
  destruct (Py.scan_digits _ _ _ _ _) as [[[v n] rest]|] eqn:Hscan; [|reflexivity].
  destruct (zero_only && _); [reflexivity|].
  destruct (n =? 0)%nat; [reflexivity|].
  rewrite (skip_space_hyphen rest); [reflexivity|].
  eapply scan_digits_hyphen; eassumption.
Qed.

(* ================================================================= *)
(** * The code point selection *)

Section Interval.

Variables lo_str hi_str : string.
Hypothesis lo_hyphen : Py.contains "-" lo_str = false.
Hypothesis hi_hyphen : Py.contains "-" hi_str = false.
Hypothesis lo_comma : Py.contains "," lo_str = false.
Hypothesis hi_comma : Py.contains "," hi_str = false.

Lemma interval_form : is_interval (lo_str ++ "-" ++ hi_str) = true.
Proof.
  unfold is_interval.
  rewrite !contains_app, count_app. simpl.
  rewrite lo_hyphen, lo_comma, hi_comma, !(count_absent "-") by assumption.
  reflexivity.
Qed.

Lemma interval_split :
  Py.split "-" (lo_str ++ "-" ++ hi_str) = [lo_str; hi_str].
Proof.
  change (lo_str ++ "-" ++ hi_str)%string with (lo_str ++ String "-" hi_str)%string.
  rewrite split_app, split_absent by assumption. reflexivity.
Qed.

(** On a spec of the interval form the selection is decided by the two
    bounds alone. *)
Lemma parse_interval :
  parse_range (lo_str ++ "-" ++ hi_str) =
  (lo <- Py.int lo_str 0 ;; hi <- Py.int hi_str 0 ;; Ok (Py.range lo (hi + 1))).
Proof. unfold parse_range. rewrite interval_form, interval_split. reflexivity. Qed.

(** It is rejected exactly when a bound is no integer literal. *)
Lemma parse_interval_raises (e : exn) :
  parse_range (lo_str ++ "-" ++ hi_str) = Raise e <->
  e = ValueError /\
  (Py.int lo_str 0 = Raise ValueError \/ Py.int hi_str 0 = Raise ValueError).
Proof.
  rewrite parse_interval. split.
  - destruct (Py.int lo_str 0) as [lo|e1] eqn:Hlo; simpl.
    + destruct (Py.int hi_str 0) as [hi|e2] eqn:Hhi; simpl; [discriminate|].
      intros H. injection H as <-.
      rewrite (int_raises _ _ _ Hhi). auto.
    + intros H. injection H as <-.
      rewrite (int_raises _ _ _ Hlo). auto.
  - intros [-> [H | H]].
    + rewrite H. reflexivity.
    + rewrite H. destruct (Py.int lo_str 0) as [lo|e1] eqn:Hlo; simpl;
        [reflexivity | rewrite (int_raises _ _ _ Hlo); reflexivity].
Qed.

End Interval.

Lemma list_form (range : string) :
  is_interval range = false ->
  parse_range range =
  for_each (fun tok => Py.int tok 0)
           (filter (fun tok => negb (blank tok)) (Py.split "," range)).
Proof.
  intros H. unfold parse_range. rewrite H. f_equal.
  apply filter_ext. intros tok. apply strip_truthy.
Qed.

Lemma comma_not_interval (range : string) :
  Py.contains "," range = true -> is_interval range = false.
Proof. intros H. unfold is_interval. rewrite H. apply andb_false_r. Qed.

(** ** Properties of the selection *)

(** C4.  For a spec [LO-HI] of the interval form (no other hyphen, no comma)
    whose bounds are integer literals with [LO <= HI], the selection is
    the [HI - LO + 1] code points from [LO] to [HI], in ascending order. *)
Theorem interval_selection (lo_str hi_str : string) (lo hi : Z) :
  Py.contains "-" lo_str = false -> Py.contains "-" hi_str = false ->
  Py.contains "," lo_str = false -> Py.contains "," hi_str = false ->
  Py.int lo_str 0 = Ok lo -> Py.int hi_str 0 = Ok hi ->
  lo <= hi ->
  exists cps,
    parse_range (lo_str ++ "-" ++ hi_str) = Ok cps
    /\ Z.of_nat (List.length cps) = hi - lo + 1
    /\ StronglySorted Z.lt cps
    /\ (forall u, In u cps <-> lo <= u <= hi)
    /\ (forall i, 0 <= i <= hi - lo -> nth (Z.to_nat i) cps 0 = lo + i).
Proof.
  intros H1 H2 H3 H4 Hlo Hhi Hle.
  exists (Py.range lo (hi + 1)).
  split; [|split; [|split; [|split]]].
  - rewrite parse_interval by assumption. rewrite Hlo, Hhi. reflexivity.
  - rewrite range_length. lia.
  - apply range_sorted.
  - intros u. rewrite range_In. lia.
  - intros i Hi. rewrite range_nth by lia. lia.
Qed.

Lemma interval_selection_witness :
  exists cps,
    parse_range "0x21-0x7E" = Ok cps
    /\ Z.of_nat (List.length cps) = 0x7E - 0x21 + 1
    /\ StronglySorted Z.lt cps
    /\ (forall u, In u cps <-> 0x21 <= u <= 0x7E)
    /\ (forall i, 0 <= i <= 0x7E - 0x21 -> nth (Z.to_nat i) cps 0 = 0x21 + i).
Proof.
  apply (interval_selection "0x21" "0x7E" 0x21 0x7E);
    solve [reflexivity | lia].
Defined.

(** C3, as the code has it.  A spec of the interval form whose bounds are
    integer literals with [HI < LO] is accepted: no order of the bounds is
    checked, and the selection is empty.  A spec of the interval form is
    rejected exactly when one of its bounds is no integer literal. *)
Theorem reversed_interval_is_empty (lo_str hi_str : string) :
  Py.contains "-" lo_str = false -> Py.contains "-" hi_str = false ->
  Py.contains "," lo_str = false -> Py.contains "," hi_str = false ->
  (forall lo hi,
      Py.int lo_str 0 = Ok lo -> Py.int hi_str 0 = Ok hi -> hi < lo ->
      parse_range (lo_str ++ "-" ++ hi_str) = Ok [])
  /\ (forall e,
         parse_range (lo_str ++ "-" ++ hi_str) = Raise e <->
         e = ValueError /\
         (Py.int lo_str 0 = Raise ValueError \/ Py.int hi_str 0 = Raise ValueError)).
Proof.
  intros H1 H2 H3 H4. split.
  - intros lo hi Hlo Hhi Hlt.
    rewrite parse_interval by assumption. rewrite Hlo, Hhi. simpl.
    rewrite range_empty by lia. reflexivity.
  - intros e. apply parse_interval_raises; assumption.
Qed.

Lemma reversed_interval_is_empty_witness : parse_range "0x7E-0x21" = Ok [].
Proof.
  destruct (reversed_interval_is_empty "0x7E" "0x21" eq_refl eq_refl eq_refl eq_refl)
    as [Hempty _].
  apply (Hempty 0x7E 0x21); solve [reflexivity | lia].
Defined.

(** C3 as stated fails: [0x7E-0x21] has one hyphen, no comma, two bounds
    that are integer literals and [HI < LO], and it is not rejected. *)
Lemma reversed_interval_accepted :
  is_interval "0x7E-0x21" = true
  /\ Py.split "-" "0x7E-0x21" = ["0x7E"; "0x21"]
  /\ Py.int "0x7E" 0 = Ok 126 /\ Py.int "0x21" 0 = Ok 33 /\ 33 < 126
  /\ (forall e, parse_range "0x7E-0x21" <> Raise e).
Proof. repeat split; try reflexivity. intros e. discriminate. Qed.

(** C2, as the code has it.  A spec with a comma is read as a list, never as
    an interval, and it is rejected with [ValueError] as soon as one token
    has a hyphen after its first non-blank character, as [0x21-0x7E]
    has. *)
Theorem comma_spec_is_list (range : string) :
  Py.contains "," range = true ->
  parse_range range =
    for_each (fun tok => Py.int tok 0)
             (filter (fun tok => negb (blank tok)) (Py.split "," range))
  /\ (forall tok, In tok (Py.split "," range) -> inner_hyphen tok = true ->
                  parse_range range = Raise ValueError).
Proof.
  intros Hc. pose proof (list_form range (comma_not_interval range Hc)) as Hp.
  split; [exact Hp|].
  intros tok Hin Hh. rewrite Hp.
  apply for_each_raises with (x := tok).
  - intros y e. apply int_raises.
  - apply filter_In. split; [exact Hin|].
    rewrite (hyphen_not_blank tok (inner_hyphen_contains tok Hh)). reflexivity.
  - apply int_inner_hyphen. exact Hh.
Qed.

Lemma comma_spec_is_list_witness :
  Py.contains "," "0x21-0x7E,0x80" = true
  /\ parse_range "0x21-0x7E,0x80" = Raise ValueError.
Proof.
  split; [reflexivity|].
  apply (comma_spec_is_list "0x21-0x7E,0x80" eq_refl) with (tok := "0x21-0x7E").
  - left. reflexivity.
  - reflexivity.
Defined.

(** C2 as stated fails: [-0,0x41] holds a hyphen and a comma, its hyphen is
    the sign of the first token, and the spec is accepted. *)
Lemma signed_token_accepted :
  Py.contains "-" "-0,0x41" = true /\ Py.contains "," "-0,0x41" = true
  /\ parse_range "-0,0x41" = Ok [0; 65].
Proof. repeat split. Qed.

(** C10.  In a spec read as a list, the tokens that are empty or hold only
    whitespace are skipped: the selection is that of the other tokens, in
    order, and a blank token is never a reason to reject. *)
Theorem blank_tokens_skipped (toks : list string) :
  toks <> [] ->
  Forall (fun tok => Py.contains "," tok = false) toks ->
  is_interval (Py.join "," toks) = false ->
  parse_range (Py.join "," toks) =
    for_each (fun tok => Py.int tok 0)
             (filter (fun tok => negb (blank tok)) toks).
Proof.
  intros Hne Hall Hlist. rewrite (list_form _ Hlist).
  rewrite split_join by assumption. reflexivity.
Qed.

Lemma blank_tokens_skipped_witness :
  parse_range "0x41,,0x42" = Ok [65; 66].
Proof.
  apply (blank_tokens_skipped ["0x41"; ""; "0x42"]).
  - discriminate.
  - repeat constructor.
  - reflexivity.
Defined.

Example trailing_comma : parse_range "0x41," = Ok [65].
Proof. reflexivity. Qed.

Example blank_only : parse_range " , " = Ok [].
Proof. reflexivity. Qed.

(* ================================================================= *)
(** * Column packing *)

Lemma bit_string_scan (col : list Z) :
  forall acc n,
    Py.scan_digits 2 (bit_string col) false acc n =
    Some (binary_value acc col, (n + List.length col)%nat, EmptyString).
Proof.
  induction col as [|b col IH]; intros acc n.
  - simpl. rewrite Nat.add_0_r. reflexivity.
  - change (binary_value acc (b :: col))
      with (binary_value (acc * 2 + (if b =? 0 then 0 else 1)) col).
    cbn [bit_string List.length]. rewrite Nat.add_succ_r, <- Nat.add_succ_l.
    rewrite <- IH. destruct (b =? 0); reflexivity.
Qed.

Lemma bit_string_prefix (col : list Z) :
  Py.skip_prefix 2 (bit_string col) = bit_string col.
Proof.
  destruct col as [|b [|b' col]]; cbn [bit_string]; [reflexivity | |].
  - destruct (b =? 0); reflexivity.
  - destruct (b =? 0); destruct (b' =? 0); reflexivity.
Qed.

(** [int(s or '0', 2)] never raises on the digits that [col_to_hex] builds. *)
Lemma col_to_int_value (col : list Z) :
  col_to_int col = Ok (binary_value 0 col).
Proof.
  unfold col_to_int. destruct col as [|b col]; [reflexivity|].
  set (s := bit_string (b :: col)).
  assert (Hs : exists c r, s = String c r /\ (c = "0" \/ c = "1")%char).
  { subst s. simpl. destruct (b =? 0); eauto. }
  destruct Hs as [c [r [Hs Hc]]].
  replace (if Py.truthy s then s else "0") with s by (rewrite Hs; reflexivity).
  unfold Py.int.
  assert (H1 : Py.skip_space s = s) by (rewrite Hs; destruct Hc; subst; reflexivity).
  rewrite H1.
  assert (H2 : Py.starts_with "-" s = false) by (rewrite Hs; destruct Hc; subst; reflexivity).
  assert (H3 : Py.starts_with "+" s = false) by (rewrite Hs; destruct Hc; subst; reflexivity).
  rewrite H2, H3. cbn [orb Z.eqb].
  subst s. rewrite bit_string_prefix.
  assert (H4 : Py.starts_with "_" (bit_string (b :: col)) = false)
    by (rewrite Hs; destruct Hc; subst; reflexivity).
  rewrite H4, bit_string_scan. cbn [andb Nat.eqb Nat.add List.length Py.skip_space Py.truthy].
  f_equal. lia.
Qed.

Lemma binary_value_acc (col : list Z) :
  forall acc,
    binary_value acc col = acc * 2 ^ Z.of_nat (List.length col) + binary_value 0 col.
Proof.
  induction col as [|b col IH]; intros acc.
  - simpl. lia.
  - change (binary_value acc (b :: col))
      with (binary_value (acc * 2 + (if b =? 0 then 0 else 1)) col).
    change (binary_value 0 (b :: col))
      with (binary_value (0 * 2 + (if b =? 0 then 0 else 1)) col).
    rewrite (IH (acc * 2 + _)), (IH (0 * 2 + _)).
    replace (Z.of_nat (List.length (b :: col)))
      with (Z.succ (Z.of_nat (List.length col))) by (simpl; lia).
    rewrite Z.pow_succ_r by lia. ring.
Qed.

Lemma binary_value_cons (b : Z) (col : list Z) :
  binary_value 0 (b :: col) =
  (if b =? 0 then 0 else 1) * 2 ^ Z.of_nat (List.length col) + binary_value 0 col.
Proof.
  change (binary_value 0 (b :: col))
    with (binary_value (0 * 2 + (if b =? 0 then 0 else 1)) col).
  rewrite binary_value_acc. f_equal.
Qed.

(** A column of [height] cells packs into [height] bits. *)
Lemma binary_value_bound (col : list Z) :
  0 <= binary_value 0 col < 2 ^ Z.of_nat (List.length col).
Proof.
  induction col as [|b col IH]; [simpl; lia|].
  rewrite binary_value_cons.
  replace (Z.of_nat (List.length (b :: col)))
    with (Z.succ (Z.of_nat (List.length col))) by (simpl; lia).
  rewrite Z.pow_succ_r by lia.
  destruct (b =? 0); lia.
Qed.

Lemma testbit_top (d r k : Z) :
  0 <= k -> 0 <= r < 2 ^ k -> 0 <= d <= 1 ->
  Z.testbit (d * 2 ^ k + r) k = (d =? 1).
Proof.
  intros Hk Hr Hd.
  assert (Hq : (d * 2 ^ k + r) / 2 ^ k = d).
  { rewrite Z.add_comm, Z.div_add by lia. rewrite Z.div_small by lia. lia. }
  destruct (d =? 1) eqn:E.
  - apply Z.testbit_true; [lia|]. rewrite Hq.
    apply Z.eqb_eq in E. subst d. reflexivity.
  - apply Z.testbit_false; [lia|]. rewrite Hq.
    apply Z.eqb_neq in E. replace d with 0 by lia. reflexivity.
Qed.

Lemma testbit_below (d r k p : Z) :
  0 <= p < k -> 0 <= r < 2 ^ k ->
  Z.testbit (d * 2 ^ k + r) p = Z.testbit r p.
Proof.
  intros Hp Hr.
  rewrite <- (Z.mod_pow2_bits_low (d * 2 ^ k + r) k p) by lia.
  rewrite Z.add_comm, Z.mod_add by lia.
  rewrite Z.mod_small by lia. reflexivity.
Qed.

(** Row [y] of the column is bit [height - 1 - y] of its value. *)
Lemma binary_value_testbit (col : list Z) :
  forall y, (y < List.length col)%nat ->
    Z.testbit (binary_value 0 col) (Z.of_nat (List.length col) - 1 - Z.of_nat y)
    = negb (nth y col 0 =? 0).
Proof.
  induction col as [|b col IH]; intros y Hy; [simpl in Hy; lia|].
  rewrite binary_value_cons.
  pose proof (binary_value_bound col) as Hb.
  replace (Z.of_nat (List.length (b :: col)))
    with (Z.of_nat (List.length col) + 1) by (simpl; lia).
  destruct y as [|y].
  - replace (Z.of_nat (List.length col) + 1 - 1 - Z.of_nat 0)
      with (Z.of_nat (List.length col)) by lia.
    rewrite testbit_top by (destruct (b =? 0); lia).
    simpl. destruct (b =? 0); reflexivity.
  - simpl in Hy.
    rewrite testbit_below by lia.
    replace (Z.of_nat (List.length col) + 1 - 1 - Z.of_nat (S y))
      with (Z.of_nat (List.length col) - 1 - Z.of_nat y) by lia.
    simpl nth. apply IH. lia.
Qed.


Lemma binary_value_background (col : list Z) :
  (forall b, In b col -> b = 0) -> binary_value 0 col = 0.
Proof.
  induction col as [|b col IH]; intros H; [reflexivity|].
  rewrite binary_value_cons, IH by (intros c Hc; apply H; right; exact Hc).
  rewrite (H b) by (left; reflexivity). reflexivity.
Qed.

Lemma column_length (bits : ndarray) (x : nat) :
  List.length (column bits x) = shape0 bits.
Proof. unfold column. rewrite length_map, length_seq. reflexivity. Qed.

Lemma column_nth (bits : ndarray) (x y : nat) :
  (y < shape0 bits)%nat -> nth y (column bits x) 0 = item bits y x.
Proof.
  intros H. unfold column.
  rewrite (nth_indep _ 0 (item bits 0 x)) by (rewrite length_map, length_seq; exact H).
  rewrite (map_nth (fun y => item bits y x)), seq_nth by exact H. reflexivity.
Qed.

(* ================================================================= *)
(** * Printing and reading numbers *)

Lemma digit_char_cases (P : Z -> Prop) :
  (forall k, (k < 36)%nat -> P (Z.of_nat k)) -> forall d, 0 <= d < 36 -> P d.
Proof.
  intros H d Hd. rewrite <- (Z2Nat.id d) by lia. apply H. lia.
Qed.

Lemma digit_value_char (d : Z) :
  0 <= d < 36 -> Py.digit_value (Py.digit_char d) = Some d.
Proof.
  revert d. apply digit_char_cases. intros k Hk.
  do 36 (destruct k as [|k]; [reflexivity|]). lia.
Qed.

Lemma digit_char_underscore (d : Z) :
  0 <= d < 36 -> Ascii.eqb (Py.digit_char d) "_" = false.
Proof.
  revert d. apply digit_char_cases. intros k Hk.
  do 36 (destruct k as [|k]; [reflexivity|]). lia.
Qed.

Lemma scan_digit (base d : Z) (s : string) (acc : Z) (n : nat) :
  0 <= d < base -> base <= 36 ->
  Py.scan_digits base (String (Py.digit_char d) s) false acc n =
  Py.scan_digits base s false (acc * base + d) (S n).
Proof.
  intros Hd Hb. simpl.
  rewrite digit_char_underscore, digit_value_char by lia.
  destruct (d <? base) eqn:E; [reflexivity|]. apply Z.ltb_ge in E. lia.
Qed.

(** Reading the digits that [to_base] printed gives the number back, when
    the fuel covers its binary length. *)
Lemma scan_to_base (base : Z) (fuel : nat) :
  2 <= base <= 36 ->
  forall n rest, 0 <= n < 2 ^ Z.of_nat (S fuel) ->
    exists nd, (0 < nd)%nat /\ forall acc k,
      Py.scan_digits base (Py.to_base (S fuel) base n rest) false acc k =
      Py.scan_digits base rest false (acc * base ^ Z.of_nat nd + n) (k + nd).
Proof.
  intros Hb. induction fuel as [|fuel IH]; intros n rest Hn.
  - exists 1%nat. split; [lia|]. intros acc k.
    change (2 ^ Z.of_nat 1) with 2 in Hn.
    cbn [Py.to_base]. destruct (n <? base) eqn:E; [|apply Z.ltb_ge in E; lia].
    rewrite scan_digit by lia. rewrite Z.pow_1_r, Nat.add_1_r. reflexivity.
  - cbn [Py.to_base]. destruct (n <? base) eqn:E.
    + apply Z.ltb_lt in E. exists 1%nat. split; [lia|]. intros acc k.
      rewrite scan_digit by lia. rewrite Z.pow_1_r, Nat.add_1_r. reflexivity.
    + apply Z.ltb_ge in E.
      assert (Hq : 0 <= n / base < 2 ^ Z.of_nat (S fuel)).
      { split; [apply Z.div_pos; lia|].
        apply Z.div_lt_upper_bound; [lia|].
        replace (Z.of_nat (S (S fuel))) with (Z.succ (Z.of_nat (S fuel))) in Hn by lia.
        rewrite Z.pow_succ_r in Hn by lia.
        assert (0 < 2 ^ Z.of_nat (S fuel)) by (apply Z.pow_pos_nonneg; lia).
        nia. }
      destruct (IH (n / base) (String (Py.digit_char (n mod base)) rest) Hq)
        as [nd [Hnd Hscan]].
      exists (S nd). split; [lia|]. intros acc k.
      rewrite Hscan.
      assert (Hm : 0 <= n mod base < base) by (apply Z.mod_pos_bound; lia).
      rewrite scan_digit by lia.
      replace (Z.of_nat (S nd)) with (Z.succ (Z.of_nat nd)) by lia.
      rewrite Z.pow_succ_r by lia.
      rewrite Nat.add_succ_r.
      f_equal. pose proof (Z.div_mod n base ltac:(lia)). nia.
Qed.

Lemma to_base_head (base : Z) (fuel : nat) :
  0 < base ->
  forall n rest, 0 <= n ->
    exists d r, 0 <= d < base
                /\ Py.to_base (S fuel) base n rest = String (Py.digit_char d) r.
Proof.
  intros Hb. induction fuel as [|fuel IH]; intros n rest Hn;
    cbn [Py.to_base]; destruct (n <? base) eqn:E;
    try (apply Z.ltb_lt in E; exists n, rest; split; [lia | reflexivity]).
  - exists (n mod base), rest. split; [apply Z.mod_pos_bound; lia | reflexivity].
  - apply IH. apply Z.div_pos; lia.
Qed.

Lemma digits_fuel (n : Z) :
  0 <= n -> 0 <= n < 2 ^ Z.of_nat (S (Z.to_nat (Z.log2 n))).
Proof.
  intros Hn. split; [exact Hn|].
  pose proof (Z.log2_nonneg n) as Hl.
  replace (Z.of_nat (S (Z.to_nat (Z.log2 n)))) with (Z.succ (Z.log2 n)) by lia.
  destruct (Z.eq_dec n 0) as [->|Hz]; [reflexivity|].
  apply Z.log2_spec. lia.
Qed.

(** The digits of a number: at least one, none an underscore, and they read
    back as the number. *)
Lemma digits_scan (base n : Z) :
  2 <= base <= 36 -> 0 <= n ->
  exists d r nd,
    Py.digits base n = String (Py.digit_char d) r /\ 0 <= d < base
    /\ (0 < nd)%nat
    /\ Py.scan_digits base (Py.digits base n) false 0 O = Some (n, nd, EmptyString).
Proof.
  intros Hb Hn. unfold Py.digits.
  destruct (to_base_head base (Z.to_nat (Z.log2 n)) ltac:(lia) n EmptyString Hn)
    as [d [r [Hd Hhead]]].
  destruct (scan_to_base base (Z.to_nat (Z.log2 n)) Hb n EmptyString (digits_fuel n Hn))
    as [nd [Hnd Hscan]].
  exists d, r, nd. repeat split; try assumption; try lia.
  rewrite Hscan. reflexivity.
Qed.

Lemma int_hex_nonneg (n : Z) : 0 <= n -> Py.int ("0x" ++ Py.digits 16 n) 0 = Ok n.
Proof.
  intros Hn.
  destruct (digits_scan 16 n ltac:(lia) Hn) as [d [r [nd [Hhead [Hd [Hnd Hscan]]]]]].
  assert (Hu : Ascii.eqb (Py.digit_char d) "_" = false)
    by (apply digit_char_underscore; lia).
  unfold Py.int.
  change (Py.skip_space ("0x" ++ Py.digits 16 n)) with ("0x" ++ Py.digits 16 n)%string.
  cbn [Py.starts_with String.append orb Ascii.eqb Bool.eqb Z.eqb Py.detect_base].
  cbn [Py.skip_prefix Ascii.eqb Bool.eqb Z.eqb andb orb Pos.eqb].
  assert (Hp : match Py.digits 16 n with
               | EmptyString => Py.digits 16 n
               | String u s'' => if Ascii.eqb u "_" then s'' else Py.digits 16 n
               end = Py.digits 16 n).
  { rewrite Hhead at 1. rewrite Hu. reflexivity. }
  rewrite Hp, Hscan.
  rewrite Hhead at 1. cbn [Py.starts_with]. rewrite Hu.
  destruct nd; [lia|].
  cbn [andb Nat.eqb Py.skip_space Py.truthy]. f_equal; lia.
Qed.

Lemma int_hex_neg (n : Z) : 0 <= n -> Py.int ("-0x" ++ Py.digits 16 n) 0 = Ok (- n).
Proof.
  intros Hn.
  destruct (digits_scan 16 n ltac:(lia) Hn) as [d [r [nd [Hhead [Hd [Hnd Hscan]]]]]].
  assert (Hu : Ascii.eqb (Py.digit_char d) "_" = false)
    by (apply digit_char_underscore; lia).
  unfold Py.int.
  change (Py.skip_space ("-0x" ++ Py.digits 16 n)) with ("-0x" ++ Py.digits 16 n)%string.
  cbn [Py.starts_with String.append orb Ascii.eqb Bool.eqb Z.eqb Py.detect_base Py.tail].
  cbn [Py.skip_prefix Ascii.eqb Bool.eqb Z.eqb andb orb Pos.eqb].
  assert (Hp : match Py.digits 16 n with
               | EmptyString => Py.digits 16 n
               | String u s'' => if Ascii.eqb u "_" then s'' else Py.digits 16 n
               end = Py.digits 16 n).
  { rewrite Hhead at 1. rewrite Hu. reflexivity. }
  rewrite Hp, Hscan.
  rewrite Hhead at 1. cbn [Py.starts_with]. rewrite Hu.
  destruct nd; [lia|].
  cbn [andb Nat.eqb Py.skip_space Py.truthy]. f_equal; lia.
Qed.

(** A literal printed by [hex] reads back, with [int(_, 0)], as the number
    it was printed from. *)
Lemma int_hex (n : Z) : Py.int (Py.hex n) 0 = Ok n.
Proof.
  unfold Py.hex. destruct (n <? 0) eqn:E.
  - apply Z.ltb_lt in E. rewrite int_hex_neg by lia. f_equal. lia.
  - apply Z.ltb_ge in E. apply int_hex_nonneg. exact E.
Qed.

(* ================================================================= *)
(** * The rendered cell *)

Lemma col_to_hex_value (col : list Z) :
  col_to_hex col = Ok (Py.hex (binary_value 0 col)).
Proof. unfold col_to_hex. rewrite col_to_int_value. reflexivity. Qed.

Lemma hex_nonneg (n : Z) : 0 <= n -> Py.hex n = hex_literal n.
Proof.
  intros H. unfold Py.hex. destruct (n <? 0) eqn:E; [|reflexivity].
  apply Z.ltb_lt in E. lia.
Qed.

Lemma hex_cols_value (bits : ndarray) :
  for_each (fun x => col_to_hex (column bits x)) (seq 0 (shape1 bits)) =
  Ok (map hex_literal (packed_columns bits)).
Proof.
  unfold packed_columns. rewrite map_map.
  apply for_each_total. intros x _.
  rewrite col_to_hex_value, hex_nonneg; [reflexivity|].
  apply binary_value_bound.
Qed.

Lemma cell_shape (font : FreeTypeFont) (ch : Z) :
  let '(bits, W, H) := baseline_aligned_cell font ch in
  Z.of_nat (shape0 bits) = H /\ Z.of_nat (shape1 bits) = W /\ 1 <= W /\ 1 <= H.
Proof.
  unfold baseline_aligned_cell. destruct (getmetrics font) as [ascent descent].
  cbn [eq0_uint8 np_array draw_text Image_new shape0 shape1 size fst snd].
  lia.
Qed.


(** C1.  Whatever the cell, the integer of column [x] has bit
    [height - 1 - y] set exactly when cell [(y, x)] is ink, so that the top
    row is the most significant bit; reading these bits back gives the
    column as it was; a column without ink packs to 0. *)
Theorem column_packing (bits : ndarray) (x : nat) :
  let height := shape0 bits in
  exists n,
    col_to_int (column bits x) = Ok n
    /\ col_to_hex (column bits x) = Ok (Py.hex n)
    /\ (forall y, (y < height)%nat ->
          Z.testbit n (Z.of_nat height - 1 - Z.of_nat y) = ink bits y x)
    /\ decode_column height n = map (fun y => ink bits y x) (seq 0 height)
    /\ ((forall y, (y < height)%nat -> ink bits y x = false) -> n = 0).
Proof.
  intros height. subst height. exists (binary_value 0 (column bits x)).
  assert (Hbit : forall y, (y < shape0 bits)%nat ->
            Z.testbit (binary_value 0 (column bits x))
                      (Z.of_nat (shape0 bits) - 1 - Z.of_nat y) = ink bits y x).
  { intros y Hy. unfold ink. rewrite <- (column_nth bits x y Hy).
    rewrite <- (column_length bits x) at 1.
    apply binary_value_testbit. rewrite column_length. exact Hy. }
  split; [apply col_to_int_value|].
  split; [apply col_to_hex_value|].
  split; [exact Hbit|].
  split.
  - unfold decode_column. apply map_ext_in. intros y Hy.
    apply Hbit. apply in_seq in Hy. lia.
  - intros Hbg. apply binary_value_background. intros b Hb.
    unfold column in Hb. apply in_map_iff in Hb. destruct Hb as [y [<- Hy]].
    apply in_seq in Hy. specialize (Hbg y ltac:(lia)).
    unfold ink in Hbg. apply negb_false_iff, Z.eqb_eq in Hbg. exact Hbg.
Qed.

(** On the cell of any character, the comprehension of
    [emit_setglyph_line] gives as many column literals as the cell is wide,
    and each literal reads as an integer in [[0, 2^height)]. *)
Lemma cell_hex_cols (font : FreeTypeFont) (ch : Z) :
  let '(bits, W, H) := baseline_aligned_cell font ch in
  exists hex_cols,
    for_each (fun x => col_to_hex (column bits x)) (seq 0 (shape1 bits))
      = Ok hex_cols
    /\ Z.of_nat (List.length hex_cols) = W
    /\ Forall (fun lit => exists n, Py.int lit 0 = Ok n /\ 0 <= n < 2 ^ H)
              hex_cols.
Proof.
  pose proof (cell_shape font ch) as Hshape.
  destruct (baseline_aligned_cell font ch) as [[bits W] H].
  destruct Hshape as [H0 [H1 _]].
  exists (map hex_literal (packed_columns bits)).
  split; [apply hex_cols_value|]. split.
  - unfold packed_columns. rewrite !length_map, length_seq. exact H1.
  - apply Forall_forall. intros lit Hlit.
    apply in_map_iff in Hlit. destruct Hlit as [n [<- Hn]].
    unfold packed_columns in Hn. apply in_map_iff in Hn.
    destruct Hn as [x [<- _]].
    pose proof (binary_value_bound (column bits x)) as Hb.
    rewrite column_length, H0 in Hb.
    exists (binary_value 0 (column bits x)). split; [|exact Hb].
    apply int_hex_nonneg. lia.
Qed.

(** C6, as the code has it.  The height of a cell does not depend on the
    character: it is [max(1, ascent + descent)] for every glyph of a run,
    which is [ascent + descent] when that sum is at least 1; the bit matrix
    has that many rows. *)
Theorem cell_height (font : FreeTypeFont) (ch ch' : Z) :
  let '(bits, _, H) := baseline_aligned_cell font ch in
  let '(_, _, H') := baseline_aligned_cell font ch' in
  let '(ascent, descent) := getmetrics font in
  H = H' /\ H = Z.max 1 (ascent + descent)
  /\ Z.of_nat (shape0 bits) = H
  /\ (1 <= ascent + descent -> H = ascent + descent).
Proof.
  unfold baseline_aligned_cell. destruct (getmetrics font) as [ascent descent].
  cbn [eq0_uint8 np_array draw_text Image_new shape0 size snd].
  repeat split; lia.
Qed.

(** C6 as stated fails on a font whose metrics add up to 0: the height is 1. *)
Lemma flat_font_height :
  let '(_, _, H) := baseline_aligned_cell flat_font 65 in
  let '(ascent, descent) := getmetrics flat_font in
  H = 1 /\ ascent + descent = 0 /\ H <> ascent + descent.
Proof. cbn. repeat split. discriminate. Qed.

(** C8, as the code has it.  The width of a cell is at least 1.  It is the
    ceiling of the advance, or 1 if that is less, when the font object
    reports an advance; when [getlength] raises, it is the width of the box
    that [getsize] reports, or 1 if that is less.  The bit matrix has that
    many columns. *)
Theorem cell_width (font : FreeTypeFont) (ch : Z) :
  let '(bits, W, _) := baseline_aligned_cell font ch in
  1 <= W
  /\ Z.of_nat (shape1 bits) = W
  /\ (forall advance, getlength font ch = Some advance ->
        W = Z.max 1 (Qceiling advance))
  /\ (getlength font ch = None -> W = Z.max 1 (fst (getsize font ch))).
Proof.
  unfold baseline_aligned_cell. destruct (getmetrics font) as [ascent descent].
  cbn [eq0_uint8 np_array draw_text Image_new shape1 size fst].
  destruct (getlength font ch) as [len|].
  - split; [lia|]. split; [lia|]. split; [|discriminate].
    intros advance [= <-]. reflexivity.
  - split; [lia|]. split; [lia|]. split; [discriminate | intros _; lia].
Qed.

(** C8 as stated fails when [getlength] raises: the width is that of the
    box, and no advance enters it. *)
Lemma legacy_font_width :
  let '(_, W, _) := baseline_aligned_cell legacy_font 65 in
  W = fst (getsize legacy_font 65)
  /\ ~ (exists advance, getlength legacy_font 65 = Some advance
                        /\ W = Z.max 1 (Qceiling advance)).
Proof. cbn. split; [reflexivity|]. intros [advance [H _]]. discriminate. Qed.

Example demo_font_cell :
  let '(bits, W, H) := baseline_aligned_cell demo_font 65 in
  W = 3 /\ H = 4 /\ packed_columns bits = [0xA; 0x6; 0x2].
Proof. repeat split. Qed.

(* ================================================================= *)
(** * The emitted records *)

Lemma of_str_app (a b : string) :
  Py.of_str (a ++ b) = (Py.of_str a ++ Py.of_str b)%list.
Proof.
  unfold Py.of_str. induction a as [|c a IH]; simpl; [reflexivity|].
  rewrite IH. reflexivity.
Qed.

Lemma chr_in_range (u : Z) : 0 <= u <= 0x10FFFF -> Py.chr u = Ok u.
Proof.
  intros H. unfold Py.chr.
  replace (u <? - 2 ^ 31) with false by (symmetry; apply Z.ltb_ge; lia).
  replace (2 ^ 31 - 1 <? u) with false by (symmetry; apply Z.ltb_ge; lia).
  replace (u <? 0) with false by (symmetry; apply Z.ltb_ge; lia).
  replace (1114111 <? u) with false by (symmetry; apply Z.ltb_ge; lia).
  reflexivity.
Qed.

Lemma scalar_in_range (u : Z) : is_scalar_value u = true -> 0 <= u <= 0x10FFFF.
Proof. unfold is_scalar_value. lia. Qed.

(** The line of a code point in the Unicode range: a TAB, then the record
    in the shape of the output format. *)
Lemma emit_setglyph_line_shape (family : Py.text) (u : Z) (bits : ndarray)
    (width height : Z) :
  0 <= u <= 0x10FFFF ->
  emit_setglyph_line family u bits width height =
  Ok (TAB ++ record_shape family (hex_literal u)
               (map hex_literal (packed_columns bits)) width height u)%list.
Proof.
  intros Hu. unfold emit_setglyph_line, record_shape.
  rewrite hex_cols_value, (chr_in_range u Hu), (hex_nonneg u) by lia.
  cbn [bind]. rewrite !of_str_app, <- !app_assoc. reflexivity.
Qed.

(** C5, as the code has it.  The line of a record is one TAB followed by
    exactly the shape of the output format, with the fields in its order and
    the two reserved zeros; the code point and the columns are printed as
    [0x] literals that read back as the code point and as the integers of
    the columns. *)
Theorem record_line_shape (family : Py.text) (u : Z) (bits : ndarray)
    (width height : Z) :
  0 <= u <= 0x10FFFF ->
  emit_setglyph_line family u bits width height =
    Ok (TAB ++ record_shape family (hex_literal u)
                 (map hex_literal (packed_columns bits)) width height u)%list
  /\ Py.int (hex_literal u) 0 = Ok u
  /\ Forall (fun n => Py.int (hex_literal n) 0 = Ok n) (packed_columns bits)
  /\ List.length (packed_columns bits) = shape1 bits.
Proof.
  intros Hu. split; [apply emit_setglyph_line_shape; exact Hu|].
  split; [apply int_hex_nonneg; lia|]. split.
  - apply Forall_forall. intros n Hn. apply int_hex_nonneg.
    unfold packed_columns in Hn. apply in_map_iff in Hn.
    destruct Hn as [x [<- _]]. apply binary_value_bound.
  - unfold packed_columns. rewrite length_map, length_seq. reflexivity.
Qed.

Lemma record_line_shape_witness :
  emit_setglyph_line (Py.of_str "Fam") 0x41 dot 1 1 =
    Ok (TAB ++ record_shape (Py.of_str "Fam") "0x41" ["0x1"] 1 1 0x41)%list
  /\ Py.int (hex_literal 0x41) 0 = Ok 0x41
  /\ Forall (fun n => Py.int (hex_literal n) 0 = Ok n) (packed_columns dot)
  /\ List.length (packed_columns dot) = shape1 dot.
Proof. apply (record_line_shape (Py.of_str "Fam") 0x41 dot 1 1). lia. Defined.

(** C5 as stated fails: the line starts with a TAB, which the shape does not
    have. *)
Lemma record_line_starts_with_tab :
  emit_setglyph_line (Py.of_str "Fam") 0x41 dot 1 1 =
    Ok (9 :: record_shape (Py.of_str "Fam") "0x41" ["0x1"] 1 1 0x41)
  /\ emit_setglyph_line (Py.of_str "Fam") 0x41 dot 1 1 <>
    Ok (record_shape (Py.of_str "Fam") "0x41" ["0x1"] 1 1 0x41).
Proof. split; [reflexivity | discriminate]. Qed.

(** ** The run *)

Lemma glyph_lines_value (font : FreeTypeFont) (family : Py.text) (cps : list Z) :
  Forall (fun u => 0 <= u <= 0x10FFFF) cps ->
  glyph_lines font family cps = Ok (map (glyph_record font family) cps).
Proof.
  intros Hall. unfold glyph_lines. apply for_each_total.
  intros u Hu. rewrite Forall_forall in Hall. specialize (Hall u Hu).
  rewrite (chr_in_range u Hall). cbn [bind]. unfold glyph_record.
  destruct (baseline_aligned_cell font u) as [[bits w] h].
  apply emit_setglyph_line_shape. exact Hall.
Qed.

Lemma utf8_char_scalar (c : Z) :
  is_scalar_value c = true -> exists bs, Py.utf8_char c = Ok bs.
Proof.
  unfold is_scalar_value, Py.utf8_char. intros H.
  destruct (c <? 128); [eauto|].
  destruct (c <? 2048); [eauto|].
  destruct ((55296 <=? c) && (c <=? 57343)) eqn:E.
  - rewrite andb_true_iff in H. destruct H as [_ H]. discriminate.
  - destruct (c <? 65536); eauto.
Qed.

Lemma for_each_defined {A B} (f : A -> result B) (l : list A) :
  Forall (fun x => exists y, f x = Ok y) l -> exists ys, for_each f l = Ok ys.
Proof.
  induction 1 as [|x l [y Hy] _ [ys Hys]]; simpl; [eauto|].
  rewrite Hy, Hys. simpl. eauto.
Qed.

Lemma encode_utf8_scalar (t : Py.text) :
  Forall (fun c => is_scalar_value c = true) t ->
  exists bs, Py.encode_utf8 t = Ok bs.
Proof.
  intros H. unfold Py.encode_utf8.
  destruct (for_each_defined Py.utf8_char t) as [bs Hbs].
  - eapply Forall_impl; [|exact H]. apply utf8_char_scalar.
  - rewrite Hbs. simpl. eauto.
Qed.

Lemma of_str_scalar (s : string) :
  Forall (fun c => is_scalar_value c = true) (Py.of_str s).
Proof.
  unfold Py.of_str. apply Forall_forall. intros c Hc.
  apply in_map_iff in Hc. destruct Hc as [a [<- _]].
  unfold Py.code. pose proof (N_ascii_bounded a) as Hb.
  unfold is_scalar_value. lia.
Qed.

Lemma glyph_record_scalar (font : FreeTypeFont) (family : Py.text) (u : Z) :
  Forall (fun c => is_scalar_value c = true) family ->
  is_scalar_value u = true ->
  Forall (fun c => is_scalar_value c = true) (glyph_record font family u).
Proof.
  intros Hf Hu. unfold glyph_record.
  destruct (baseline_aligned_cell font u) as [[bits w] h].
  unfold record_shape, TAB.
  repeat (apply Forall_app; split);
    solve [apply of_str_scalar | exact Hf | repeat constructor; assumption].
Qed.

Lemma join_text_scalar (sep : Py.text) (lines : list Py.text) :
  Forall (fun c => is_scalar_value c = true) sep ->
  Forall (Forall (fun c => is_scalar_value c = true)) lines ->
  Forall (fun c => is_scalar_value c = true) (Py.join_text sep lines).
Proof.
  intros Hsep. induction 1 as [|x l Hx Hl IH]; [constructor|].
  destruct l as [|y l]; [exact Hx|].
  change (Py.join_text sep (x :: y :: l))
    with (x ++ sep ++ Py.join_text sep (y :: l))%list.
  repeat (apply Forall_app; split); assumption.
Qed.

(** C9, as the code has it.  When the requested code points are Unicode
    scalar values, whatever characters they stand for, printable or not,
    with a glyph in the font or not, the run does not fail: each code point
    gets its record, in the order of the selection, and the character itself
    appears, as it is, only in the trailing annotation of its record. *)
Theorem every_code_point_emits (font : FreeTypeFont) (family : Py.text)
    (range : string) (cps : list Z) :
  parse_range range = Ok cps ->
  Forall (fun u => is_scalar_value u = true) cps ->
  Forall (fun c => is_scalar_value c = true) family ->
  glyph_lines font family cps = Ok (map (glyph_record font family) cps)
  /\ exists bytes, main font family range = Ok bytes.
Proof.
  intros Hparse Hcps Hfam.
  assert (Hlines : glyph_lines font family cps =
                   Ok (map (glyph_record font family) cps)).
  { apply glyph_lines_value. eapply Forall_impl; [|exact Hcps].
    apply scalar_in_range. }
  split; [exact Hlines|].
  unfold main. rewrite Hparse. cbn [bind]. rewrite Hlines. cbn [bind].
  apply encode_utf8_scalar. apply join_text_scalar; [repeat constructor|].
  apply Forall_forall. intros line Hline.
  apply in_map_iff in Hline. destruct Hline as [u [<- Hu]].
  rewrite Forall_forall in Hcps.
  apply glyph_record_scalar; [exact Hfam | apply Hcps; exact Hu].
Qed.

Lemma every_code_point_emits_witness :
  glyph_lines demo_font (Py.of_str "Fam") [0x0; 0x7; 0x41; 0x20AC] =
    Ok (map (glyph_record demo_font (Py.of_str "Fam")) [0x0; 0x7; 0x41; 0x20AC])
  /\ exists bytes, main demo_font (Py.of_str "Fam") "0x0,0x7,0x41,0x20AC" = Ok bytes.
Proof.
  apply (every_code_point_emits demo_font (Py.of_str "Fam")
           "0x0,0x7,0x41,0x20AC" [0x0; 0x7; 0x41; 0x20AC]).
  - reflexivity.
  - repeat constructor.
  - repeat constructor.
Defined.

(** C9 as stated fails: a requested surrogate code point has no UTF-8
    encoding and stops the run when the file is written, and a requested
    value beyond the Unicode range stops it at [chr]. *)
Lemma unencodable_code_point_stops_run :
  parse_range "0xD800" = Ok [0xD800]
  /\ main demo_font (Py.of_str "Fam") "0xD800" = Raise UnicodeEncodeError
  /\ parse_range "0x110000" = Ok [0x110000]
  /\ main demo_font (Py.of_str "Fam") "0x110000" = Raise ValueError.
Proof. repeat split. Qed.

(* ================================================================= *)
(** * Further properties of the packing *)

Lemma binary_value_app (top bottom : list Z) :
  binary_value 0 (top ++ bottom) =
  binary_value 0 top * 2 ^ Z.of_nat (List.length bottom) + binary_value 0 bottom.
Proof.
  unfold binary_value at 1. rewrite fold_left_app.
  change (binary_value (binary_value 0 top) bottom = 
          binary_value 0 top * 2 ^ Z.of_nat (List.length bottom)
          + binary_value 0 bottom).
  apply binary_value_acc.
Qed.

Lemma binary_value_repeat0 (k : nat) : binary_value 0 (repeat 0 k) = 0.
Proof.
  apply binary_value_background. intros b Hb.
  apply repeat_spec in Hb. exact Hb.
Qed.

Lemma hex_literal_inj (n m : Z) :
  0 <= n -> 0 <= m -> hex_literal n = hex_literal m -> n = m.
Proof.
  intros Hn Hm H.
  pose proof (int_hex_nonneg n Hn) as H1.
  pose proof (int_hex_nonneg m Hm) as H2.
  unfold hex_literal in H. rewrite H in H1. congruence.
Qed.

Lemma col_to_hex_literal (col : list Z) :
  col_to_hex col = Ok (hex_literal (binary_value 0 col)).
Proof.
  rewrite col_to_hex_value, hex_nonneg; [reflexivity|].
  apply binary_value_bound.
Qed.

Lemma ink_pattern_nth (col : list Z) (y : nat) :
  nth y (ink_pattern col) false = negb (nth y col 0 =? 0).
Proof.
  unfold ink_pattern.
  change false with ((fun b => negb (b =? 0)) 0).
  apply map_nth.
Qed.

Lemma ink_pattern_of_value (c1 c2 : list Z) :
  List.length c1 = List.length c2 ->
  binary_value 0 c1 = binary_value 0 c2 ->
  ink_pattern c1 = ink_pattern c2.
Proof.
  intros Hlen Hval.
  apply (nth_ext _ _ false false).
  - unfold ink_pattern. rewrite !length_map. exact Hlen.
  - intros y Hy. unfold ink_pattern in Hy. rewrite length_map in Hy.
    rewrite !ink_pattern_nth.
    rewrite <- (binary_value_testbit c1 y Hy).
    rewrite <- (binary_value_testbit c2 y) by lia.
    rewrite Hlen, Hval. reflexivity.
Qed.

(** X1.  Two columns of the same height that print the same literal have
    the same ink pattern: with the height, the literal loses nothing. *)
Theorem col_to_hex_injective (c1 c2 : list Z) :
  List.length c1 = List.length c2 ->
  col_to_hex c1 = col_to_hex c2 ->
  ink_pattern c1 = ink_pattern c2.
Proof.
  intros Hlen H. rewrite !col_to_hex_literal in H. injection H as H.
  apply ink_pattern_of_value; [exact Hlen|].
  apply hex_literal_inj; try apply binary_value_bound.
  unfold hex_literal. rewrite H. reflexivity.
Qed.

Lemma col_to_hex_injective_witness :
  ink_pattern [0; 7; 0; 1] = ink_pattern [0; 1; 0; 255].
Proof. apply col_to_hex_injective; reflexivity. Defined.

(** X2.  Stacking: the integer of a column made of a top part over a bottom
    part is the integer of the top part shifted left by the height of the
    bottom part, plus the integer of the bottom part. *)
Theorem col_to_int_stacked (top bottom : list Z) :
  exists nt nb,
    col_to_int top = Ok nt /\ col_to_int bottom = Ok nb
    /\ 0 <= nb < 2 ^ Z.of_nat (List.length bottom)
    /\ col_to_int (top ++ bottom) =
       Ok (Z.shiftl nt (Z.of_nat (List.length bottom)) + nb).
Proof.
  exists (binary_value 0 top), (binary_value 0 bottom).
  rewrite !col_to_int_value, Z.shiftl_mul_pow2 by lia.
  repeat split; try apply binary_value_bound.
  f_equal. apply binary_value_app.
Qed.

(** X3.  Rows without ink on top of a column do not change its literal:
    the literal alone does not tell the height, the record has to. *)
Theorem col_to_hex_blank_rows_above (k : nat) (col : list Z) :
  col_to_hex (repeat 0 k ++ col) = col_to_hex col.
Proof.
  rewrite !col_to_hex_literal, binary_value_app, binary_value_repeat0.
  reflexivity.
Qed.

Lemma to_base_leading (base : Z) (fuel : nat) :
  2 <= base ->
  forall n rest, 0 < n < 2 ^ Z.of_nat (S fuel) ->
    exists d r, 0 < d < base
                /\ Py.to_base (S fuel) base n rest = String (Py.digit_char d) r.
Proof.
  intros Hb. induction fuel as [|fuel IH]; intros n rest Hn.
  - change (2 ^ Z.of_nat 1) with 2 in Hn.
    cbn [Py.to_base]. destruct (n <? base) eqn:E; [|apply Z.ltb_ge in E; lia].
    exists n, rest. split; [lia | reflexivity].
  - cbn [Py.to_base]. destruct (n <? base) eqn:E.
    + apply Z.ltb_lt in E. exists n, rest. split; [lia | reflexivity].
    + apply Z.ltb_ge in E. apply IH. split.
      * apply Z.div_str_pos. lia.
      * apply Z.div_lt_upper_bound; [lia|].
        replace (Z.of_nat (S (S fuel))) with (Z.succ (Z.of_nat (S fuel))) in Hn by lia.
        rewrite Z.pow_succ_r in Hn by lia.
        assert (0 < 2 ^ Z.of_nat (S fuel)) by (apply Z.pow_pos_nonneg; lia).
        nia.
Qed.

Lemma digit_char_zero (d : Z) :
  0 < d < 36 -> Ascii.eqb (Py.digit_char d) "0" = false.
Proof.
  intros Hd. assert (H : 0 <= d < 36) by lia. revert d H Hd.
  apply (digit_char_cases (fun d => 0 < d < 36 -> _)). intros k Hk Hd.
  destruct k as [|k]; [lia|].
  do 35 (destruct k as [|k]; [reflexivity|]). lia.
Qed.

(** X4.  The literal of a column has no padding: after [0x] comes at least
    one digit, and a leading digit 0 only in the literal [0x0], which is the
    literal of the columns without ink and of no other. *)
Theorem col_to_hex_no_padding (col : list Z) :
  exists c r,
    col_to_hex col = Ok (String "0" (String "x" (String c r)))
    /\ (c = "0"%char <-> Forall (fun b => b = 0) col)
    /\ (c = "0"%char -> r = EmptyString).
Proof.
  pose proof (binary_value_bound col) as Hb.
  rewrite col_to_hex_literal. unfold hex_literal.
  destruct (Z.eq_dec (binary_value 0 col) 0) as [Hz|Hz].
  - rewrite Hz. exists "0"%char, EmptyString.
    split; [reflexivity|]. split; [|reflexivity].
    split; [|reflexivity]. intros _.
    apply Forall_forall. intros b Hin.
    destruct (Z.eq_dec b 0) as [|Hne]; [assumption|]. exfalso.
    destruct (In_nth col b 0 Hin) as [y [Hy Hnth]].
    pose proof (binary_value_testbit col y Hy) as Ht.
    rewrite Hz, Z.bits_0, Hnth in Ht.
    apply Z.eqb_neq in Hne. rewrite Hne in Ht. discriminate.
  - destruct (to_base_leading 16 (Z.to_nat (Z.log2 (binary_value 0 col)))
                ltac:(lia) (binary_value 0 col) EmptyString) as [d [r [Hd Hhead]]].
    { pose proof (digits_fuel (binary_value 0 col) ltac:(lia)). lia. }
    unfold Py.digits. rewrite Hhead.
    exists (Py.digit_char d), r. split; [reflexivity|].
    assert (Hne : Py.digit_char d <> "0"%char).
    { intros E. pose proof (digit_char_zero d ltac:(lia)) as Hc.
      rewrite E in Hc. discriminate. }
    split; [split|]; try (intros E; contradiction).
    intros Hall. exfalso. apply Hz. apply binary_value_background.
    intros b Hin. rewrite Forall_forall in Hall. apply Hall. exact Hin.
Qed.

(* ================================================================= *)
(** * From the painted pixels to the printed columns *)







(* ================================================================= *)
(** * Further properties of the selection *)

(** ** The characters of printed numbers *)

Lemma chars_app (a b : string) : chars (a ++ b) = (chars a ++ chars b)%list.
Proof.
  unfold chars. induction a as [|c a IH]; simpl; [reflexivity|].
  rewrite IH. reflexivity.
Qed.

Lemma contains_chars (sep : ascii) (s : string) :
  Forall (fun c => c <> sep) (chars s) -> Py.contains sep s = false.
Proof.
  induction s as [|c s IH]; simpl; intros H; [reflexivity|].
  inversion H as [|? ? Hc Hs]; subst.
  destruct (Ascii.eqb c sep) eqn:E; [apply Ascii.eqb_eq in E; contradiction|].
  apply IH. exact Hs.
Qed.

Lemma digit_char_code (d : Z) :
  0 <= d < 36 -> 48 <= Py.code (Py.digit_char d) <= 122.
Proof.
  revert d. apply digit_char_cases. intros k Hk.
  do 36 (destruct k as [|k]; [split; apply Z.leb_le; reflexivity|]). lia.
Qed.

Lemma to_base_chars (base : Z) (fuel : nat) :
  2 <= base <= 36 ->
  forall n rest, 0 <= n ->
    Forall (fun c => 48 <= Py.code c <= 122) (chars rest) ->
    Forall (fun c => 48 <= Py.code c <= 122) (chars (Py.to_base fuel base n rest)).
Proof.
  intros Hb. induction fuel as [|fuel IH]; intros n rest Hn Hrest;
    cbn [Py.to_base]; [exact Hrest|].
  destruct (n <? base) eqn:E.
  - apply Z.ltb_lt in E. constructor; [apply digit_char_code; lia | exact Hrest].
  - apply IH; [apply Z.div_pos; lia|].
    constructor; [|exact Hrest].
    apply digit_char_code. pose proof (Z.mod_pos_bound n base ltac:(lia)). lia.
Qed.

(** The digits that [hex] and [str] print are ASCII letters and digits. *)
Lemma digits_chars (base n : Z) :
  2 <= base <= 36 -> 0 <= n ->
  Forall (fun c => 48 <= Py.code c <= 122) (chars (Py.digits base n)).
Proof.
  intros Hb Hn. unfold Py.digits. apply to_base_chars; try assumption.
  constructor.
Qed.

Lemma hex_literal_chars (n : Z) :
  0 <= n -> Forall (fun c => 48 <= Py.code c <= 122) (chars (hex_literal n)).
Proof.
  intros Hn. unfold hex_literal.
  change ("0x" ++ Py.digits 16 n)%string
    with (String "0" (String "x" (Py.digits 16 n))).
  constructor; [split; apply Z.leb_le; reflexivity|].
  constructor; [split; apply Z.leb_le; reflexivity|].
  apply digits_chars; lia.
Qed.

Lemma hex_literal_free (sep : ascii) (n : Z) :
  0 <= n -> Py.code sep < 48 -> Py.contains sep (hex_literal n) = false.
Proof.
  intros Hn Hsep. apply contains_chars.
  eapply Forall_impl; [|apply hex_literal_chars; exact Hn].
  intros c Hc E. subst c. lia.
Qed.

Lemma contains_join_free (c : ascii) (sep : string) (toks : list string) :
  Py.contains c sep = false ->
  Forall (fun tok => Py.contains c tok = false) toks ->
  Py.contains c (Py.join sep toks) = false.
Proof.
  intros Hsep. induction 1 as [|tok toks Htok Hall IH]; [reflexivity|].
  destruct toks as [|tok2 toks]; [exact Htok|].
  change (Py.join sep (tok :: tok2 :: toks))
    with (tok ++ sep ++ Py.join sep (tok2 :: toks))%string.
  rewrite !contains_app, Htok, Hsep, IH. reflexivity.
Qed.

Lemma int_hex_literal (n : Z) : 0 <= n -> Py.int (hex_literal n) 0 = Ok n.
Proof. apply int_hex_nonneg. Qed.

Lemma for_each_int_hex (us : list Z) :
  Forall (fun u => 0 <= u) us ->
  for_each (fun tok => Py.int tok 0) (map hex_literal us) = Ok us.
Proof.
  induction 1 as [|u us Hu Hall IH]; cbn [for_each map]; [reflexivity|].
  rewrite (int_hex_literal u Hu). cbn [bind].
  rewrite IH. reflexivity.
Qed.

Lemma filter_all {A} (f : A -> bool) (l : list A) :
  Forall (fun x => f x = true) l -> filter f l = l.
Proof.
  induction 1 as [|x l Hx Hall IH]; simpl; [reflexivity|].
  rewrite Hx, IH. reflexivity.
Qed.

(** X7.  The literals that the exporter prints are accepted by its own
    selection: a comma-separated list of the [hex] literals of any non-empty
    list of non-negative code points selects that list, in its order and
    with its repetitions, and two such literals around a hyphen select the
    interval between them. *)
Theorem printed_literals_select (us : list Z) (lo hi : Z) :
  us <> [] -> Forall (fun u => 0 <= u) us -> 0 <= lo -> 0 <= hi ->
  parse_range (Py.join "," (map Py.hex us)) = Ok us
  /\ parse_range (Py.hex lo ++ "-" ++ Py.hex hi) = Ok (Py.range lo (hi + 1)).
Proof.
  intros Hne Hall Hlo Hhi. split.
  - rewrite (map_ext_in Py.hex hex_literal)
      by (intros u Hu; apply hex_nonneg; rewrite Forall_forall in Hall; auto).
    assert (Hfree : forall sep, Py.code sep < 48 ->
              Forall (fun tok => Py.contains sep tok = false) (map hex_literal us)).
    { intros sep Hsep. apply Forall_forall. intros tok Htok.
      apply in_map_iff in Htok. destruct Htok as [u [<- Hu]].
      apply hex_literal_free; [|exact Hsep].
      rewrite Forall_forall in Hall. auto. }
    rewrite list_form.
    + rewrite split_join;
        [| destruct us; [congruence | discriminate]
         | apply Hfree; apply Z.ltb_lt; reflexivity].
      rewrite filter_all; [apply for_each_int_hex; exact Hall|].
      apply Forall_forall. intros tok Htok.
      apply in_map_iff in Htok. destruct Htok as [u [<- _]]. reflexivity.
    + unfold is_interval.
      rewrite (contains_join_free "-" "," (map hex_literal us));
        [reflexivity | reflexivity | apply Hfree; apply Z.ltb_lt; reflexivity].
  - rewrite !hex_nonneg by assumption.
    rewrite parse_interval
      by (apply hex_literal_free; [assumption | apply Z.ltb_lt; reflexivity]).
    rewrite !int_hex_literal by assumption. reflexivity.
Qed.

Lemma printed_literals_select_witness :
  parse_range "0x20,0x21,0x20" = Ok [0x20; 0x21; 0x20]
  /\ parse_range "0x41-0x43" = Ok [0x41; 0x42; 0x43].
Proof.
  apply (printed_literals_select [0x20; 0x21; 0x20] 0x41 0x43).
  - discriminate.
  - repeat constructor; lia.
  - lia.
  - lia.
Defined.

(** ** The interval branch *)

Lemma count_one_split (c : ascii) (s : string) :
  Py.count c s = 1%nat ->
  exists a b, s = (a ++ String c b)%string
              /\ Py.contains c a = false /\ Py.contains c b = false.
Proof.
  induction s as [|d s IH]; simpl; [discriminate|].
  destruct (Ascii.eqb d c) eqn:E.
  - intros H. injection H as H. apply Ascii.eqb_eq in E. subst d.
    exists EmptyString, s. repeat split.
    rewrite contains_count, H. reflexivity.
  - intros H. destruct (IH H) as [a [b [-> [Ha Hb]]]].
    exists (String d a), b. repeat split; [|exact Hb].
    simpl. rewrite E. exact Ha.
Qed.

Lemma interval_bounds (range : string) :
  is_interval range = true ->
  exists lo_str hi_str,
    range = (lo_str ++ "-" ++ hi_str)%string
    /\ Py.contains "-" lo_str = false /\ Py.contains "-" hi_str = false
    /\ Py.contains "," lo_str = false /\ Py.contains "," hi_str = false.
Proof.
  unfold is_interval. intros H.
  apply andb_prop in H. destruct H as [H Hcomma].
  apply andb_prop in H. destruct H as [_ Hcount].
  apply Nat.eqb_eq in Hcount. apply negb_true_iff in Hcomma.
  destruct (count_one_split "-" range Hcount) as [a [b [-> [Ha Hb]]]].
  exists a, b. rewrite contains_app in Hcomma. simpl in Hcomma.
  apply orb_false_iff in Hcomma. destruct Hcomma as [Hca Hcb].
  repeat split; assumption.
Qed.

(** X8.  In the interval branch the split at the hyphen always gives two
    fields, so that the unpacking into the two bounds never fails: the spec
    is [lo_str-hi_str] with no hyphen and no comma in its bounds, and the
    selection is decided by reading the two bounds, the lower one first. *)
Theorem interval_branch_unpacks (range : string) :
  is_interval range = true ->
  exists lo_str hi_str,
    range = (lo_str ++ "-" ++ hi_str)%string
    /\ Py.split "-" range = [lo_str; hi_str]
    /\ parse_range range =
       (lo <- Py.int lo_str 0 ;; hi <- Py.int hi_str 0 ;;
        Ok (Py.range lo (hi + 1))).
Proof.
  intros H.
  destruct (interval_bounds range H) as [lo_str [hi_str [-> [H1 [H2 [H3 H4]]]]]].
  exists lo_str, hi_str. split; [reflexivity|]. split.
  - apply interval_split; assumption.
  - apply parse_interval; assumption.
Qed.

Lemma interval_branch_unpacks_witness :
  exists lo_str hi_str,
    " 7 - 0b1001 " = (lo_str ++ "-" ++ hi_str)%string
    /\ Py.split "-" " 7 - 0b1001 " = [lo_str; hi_str]
    /\ parse_range " 7 - 0b1001 " =
       (lo <- Py.int lo_str 0 ;; hi <- Py.int hi_str 0 ;;
        Ok (Py.range lo (hi + 1))).
Proof. apply (interval_branch_unpacks " 7 - 0b1001 "). reflexivity. Defined.

(** X9.  A spec with one hyphen, no comma and nothing before or nothing
    after the hyphen is rejected with [ValueError]: a lone negative number
    such as [-5] cannot be selected, although a list may hold one. *)
Theorem empty_bound_rejected (s : string) :
  Py.contains "-" s = false -> Py.contains "," s = false ->
  parse_range ("-" ++ s) = Raise ValueError
  /\ parse_range (s ++ "-") = Raise ValueError.
Proof.
  intros H1 H2. split.
  - apply (parse_interval_raises "" s eq_refl H1 eq_refl H2 ValueError).
    split; [reflexivity|]. left. reflexivity.
  - change (s ++ "-")%string with (s ++ "-" ++ "")%string.
    apply (parse_interval_raises s "" H1 eq_refl H2 eq_refl ValueError).
    split; [reflexivity|]. right. reflexivity.
Qed.

Lemma empty_bound_rejected_witness :
  parse_range "-5" = Raise ValueError /\ parse_range "5-" = Raise ValueError
  /\ parse_range "-5," = Ok [-5].
Proof.
  destruct (empty_bound_rejected "5" eq_refl eq_refl) as [H1 H2].
  repeat split; assumption.
Defined.

Lemma for_each_raise_iff {A B} (f : A -> result B) (e0 e : exn) (l : list A) :
  (forall y e', f y = Raise e' -> e' = e0) ->
  for_each f l = Raise e <-> e = e0 /\ exists x, In x l /\ f x = Raise e0.
Proof.
  intros Hone. split.
  - induction l as [|y l IH]; simpl; [discriminate|].
    destruct (f y) as [b|e1] eqn:Hy; simpl.
    + destruct (for_each f l) as [bs|e2]; simpl; [discriminate|].
      intros H. injection H as <-.
      destruct (IH eq_refl) as [-> [x [Hin Hx]]]. eauto.
    + intros H. injection H as <-. pose proof (Hone y e1 Hy) as ->.
      split; [reflexivity|]. exists y. auto.
  - intros [-> [x [Hin Hx]]]. eapply for_each_raises; eassumption.
Qed.

(** X10.  A spec is rejected exactly when one of the texts handed to [int],
    a bound of the interval or a non-blank field of the list, is no integer
    literal, and the rejection is always a [ValueError]. *)
Theorem rejected_iff_bad_token (range : string) (e : exn) :
  parse_range range = Raise e <->
  e = ValueError
  /\ exists tok, In tok (tokens range) /\ Py.int tok 0 = Raise ValueError.
Proof.
  unfold tokens. destruct (is_interval range) eqn:Hi.
  - destruct (interval_bounds range Hi)
      as [lo_str [hi_str [-> [H1 [H2 [H3 H4]]]]]].
    rewrite (interval_split lo_str hi_str H1 H2).
    rewrite (parse_interval_raises lo_str hi_str H1 H2 H3 H4 e).
    split; intros [-> H]; (split; [reflexivity|]).
    + destruct H as [H | H]; [exists lo_str | exists hi_str]; simpl; auto.
    + destruct H as [tok [[<- | [<- | []]] Htok]]; auto.
  - unfold parse_range. rewrite Hi.
    apply for_each_raise_iff. intros y e'. apply int_raises.
Qed.

(** ** Specs that select nothing *)

Lemma blank_spec_hyphen (range : string) :
  blank_spec range = true -> Py.contains "-" range = false.
Proof.
  induction range as [|c r IH]; simpl; [reflexivity|].
  intros H. apply andb_prop in H. destruct H as [Hc Hr].
  destruct (Ascii.eqb c "-") eqn:E; [|apply IH; exact Hr].
  apply Ascii.eqb_eq in E. subst c. discriminate.
Qed.

Lemma blank_spec_fields (range : string) :
  blank_spec range = true ->
  Forall (fun tok => blank tok = true) (Py.split "," range).
Proof.
  induction range as [|c r IH]; simpl; [repeat constructor|].
  intros H. apply andb_prop in H. destruct H as [Hc Hr].
  specialize (IH Hr).
  destruct (Ascii.eqb c ",") eqn:E; [constructor; [reflexivity | exact IH]|].
  rewrite orb_false_r in Hc.
  destruct (Py.split "," r) as [|tok rest]; [repeat constructor; simpl; rewrite Hc; reflexivity|].
  inversion IH as [|? ? Htok Hrest]; subst.
  constructor; [simpl; rewrite Hc; exact Htok | exact Hrest].
Qed.

(** X11.  A spec made of commas and whitespace only, the empty spec among
    them, is no error: it selects nothing, and the run writes an empty
    file. *)
Theorem blank_spec_selects_nothing (font : FreeTypeFont) (family : Py.text)
    (range : string) :
  blank_spec range = true ->
  parse_range range = Ok [] /\ main font family range = Ok [].
Proof.
  intros H.
  assert (Hp : parse_range range = Ok []).
  { rewrite list_form
      by (unfold is_interval; rewrite (blank_spec_hyphen range H); reflexivity).
    pose proof (blank_spec_fields range H) as Hall.
    induction Hall as [|tok l Htok _ IH]; simpl; [reflexivity|].
    rewrite Htok. exact IH. }
  split; [exact Hp|]. unfold main. rewrite Hp. reflexivity.
Qed.

Lemma blank_spec_selects_nothing_witness :
  parse_range " , ,, " = Ok []
  /\ main demo_font (Py.of_str "Fam") " , ,, " = Ok [].
Proof. apply (blank_spec_selects_nothing demo_font (Py.of_str "Fam")). reflexivity. Defined.

(* ================================================================= *)
(** * Further properties of the records and of the run *)

Lemma chr_value (u c : Z) : Py.chr u = Ok c -> c = u /\ 0 <= u <= 0x10FFFF.
Proof.
  unfold Py.chr.
  destruct (_ || _); [discriminate|].
  destruct ((u <? 0) || (1114111 <? u)) eqn:E; [discriminate|].
  intros H. injection H as <-. split; [reflexivity | lia].
Qed.

(** X12.  With a width and a height that the interpreter prints, that is of
    at most 4300 decimal digits, [emit_setglyph_line] fails on the code
    point alone, never on the bitmap: with [ValueError] when the code point
    is outside 0..0x10FFFF, with [OverflowError] when it does not even fit a
    32-bit integer; on every other code point it returns a line. *)
Theorem emit_setglyph_line_raises (family : Py.text) (u : Z) (bits : ndarray)
    (width height : Z) (e : exn) :
  Z.abs width < 10 ^ int_max_str_digits ->
  Z.abs height < 10 ^ int_max_str_digits ->
  emit_setglyph_line family u bits width height = Raise e <->
  (e = OverflowError /\ (u < - 2 ^ 31 \/ 2 ^ 31 - 1 < u))
  \/ (e = ValueError /\ - 2 ^ 31 <= u <= 2 ^ 31 - 1 /\ (u < 0 \/ 0x10FFFF < u)).
Proof.
  intros _ _.
  unfold emit_setglyph_line. rewrite hex_cols_value. cbn [bind].
  unfold Py.chr.
  destruct ((u <? - 2 ^ 31) || (2 ^ 31 - 1 <? u)) eqn:E1; cbn [bind].
  - split.
    + intros H. injection H as <-. left. split; [reflexivity | lia].
    + intros [[-> _] | [_ [H _]]]; [reflexivity | lia].
  - destruct ((u <? 0) || (1114111 <? u)) eqn:E2; cbn [bind].
    + split.
      * intros H. injection H as <-. right. repeat split; lia.
      * intros [[_ H] | [-> _]]; [lia | reflexivity].
    + split; [discriminate|]. intros [[_ H] | [_ [_ H]]]; lia.
Qed.

Lemma emit_setglyph_line_raises_witness :
  emit_setglyph_line (Py.of_str "Fam") 0x110000 dot 1 1 = Raise ValueError
  /\ emit_setglyph_line (Py.of_str "Fam") (2 ^ 31) dot 1 1 = Raise OverflowError.
Proof.
  assert (Hsize : Z.abs 1 < 10 ^ int_max_str_digits)
    by (apply Z.ltb_lt; vm_compute; reflexivity).
  split.
  - apply (emit_setglyph_line_raises (Py.of_str "Fam") 0x110000 dot 1 1
             ValueError Hsize Hsize).
    right. repeat split; lia.
  - apply (emit_setglyph_line_raises (Py.of_str "Fam") (2 ^ 31) dot 1 1
             OverflowError Hsize Hsize).
    left. split; [reflexivity | lia].
Defined.

(** X13.  The loop of [main] goes through exactly when every selected code
    point is in 0..0x10FFFF, whatever the font paints; it then yields the
    records of the code points in the order of the selection, repetitions
    included. *)
Theorem glyph_lines_succeeds (font : FreeTypeFont) (family : Py.text)
    (cps : list Z) (lines : list Py.text) :
  glyph_lines font family cps = Ok lines <->
  Forall (fun u => 0 <= u <= 0x10FFFF) cps
  /\ lines = map (glyph_record font family) cps.
Proof.
  split.
  - intros H.
    assert (Hall : Forall (fun u => 0 <= u <= 0x10FFFF) cps).
    { revert lines H. unfold glyph_lines.
      induction cps as [|u cps IH]; intros lines H; [constructor|].
      cbn [for_each] in H.
      destruct (Py.chr u) as [c|] eqn:Hc; cbn [bind] in H; [|discriminate].
      destruct (chr_value u c Hc) as [_ Hu].
      constructor; [exact Hu|].
      destruct (let '(bits, w, h) := baseline_aligned_cell font c in
                emit_setglyph_line family u bits w h); cbn [bind] in H;
        [|discriminate].
      destruct (for_each _ cps) as [ls|] eqn:Hls; cbn [bind] in H;
        [|discriminate].
      apply (IH ls). reflexivity. }
    split; [exact Hall|].
    rewrite (glyph_lines_value font family cps Hall) in H. congruence.
  - intros [Hall ->]. apply glyph_lines_value. exact Hall.
Qed.

(** ** When the run succeeds *)

Lemma utf8_char_defined (c : Z) :
  (exists bs, Py.utf8_char c = Ok bs) <-> encodable c = true.
Proof.
  unfold Py.utf8_char, encodable. split.
  - intros [bs H].
    destruct (c <? 128) eqn:E1; [lia|].
    destruct (c <? 2048) eqn:E2; [lia|].
    destruct ((55296 <=? c) && (c <=? 57343)); [discriminate | reflexivity].
  - intros H.
    destruct (c <? 128); [eauto|].
    destruct (c <? 2048); [eauto|].
    destruct ((55296 <=? c) && (c <=? 57343)); [discriminate|].
    destruct (c <? 65536); eauto.
Qed.

Lemma for_each_defined_iff {A B} (f : A -> result B) (l : list A) :
  (exists ys, for_each f l = Ok ys) <-> Forall (fun x => exists y, f x = Ok y) l.
Proof.
  split; [|apply for_each_defined].
  induction l as [|x l IH]; intros [ys H]; [constructor|].
  cbn [for_each] in H.
  destruct (f x) as [y|] eqn:Hx; cbn [bind] in H; [|discriminate].
  destruct (for_each f l) as [zs|]; cbn [bind] in H; [|discriminate].
  constructor; eauto.
Qed.

Lemma encode_utf8_defined (t : Py.text) :
  (exists bs, Py.encode_utf8 t = Ok bs) <-> Forall (fun c => encodable c = true) t.
Proof.
  assert (Hiff : Forall (fun c => encodable c = true) t <->
                 Forall (fun c => exists bs, Py.utf8_char c = Ok bs) t).
  { split; apply Forall_impl; intros c; apply utf8_char_defined. }
  rewrite Hiff, <- for_each_defined_iff. unfold Py.encode_utf8. split.
  - intros [bs H]. destruct (for_each Py.utf8_char t); [eauto | discriminate].
  - intros [bss H]. rewrite H. cbn [bind]. eauto.
Qed.

Lemma join_text_Forall (P : Z -> Prop) (sep : Py.text) (lines : list Py.text) :
  Forall P sep ->
  Forall P (Py.join_text sep lines) <-> Forall (Forall P) lines.
Proof.
  intros Hsep. induction lines as [|x l IH].
  - split; constructor.
  - destruct l as [|y l].
    + cbn [Py.join_text]. split.
      * intros H. repeat constructor. exact H.
      * intros H. inversion H. assumption.
    + change (Py.join_text sep (x :: y :: l))
        with (x ++ sep ++ Py.join_text sep (y :: l))%list.
      rewrite !Forall_app, IH. split.
      * intros [Hx [_ Hl]]. constructor; assumption.
      * intros H. inversion H. auto.
Qed.

Lemma of_str_encodable (s : string) :
  Forall (fun c => encodable c = true) (Py.of_str s).
Proof.
  eapply Forall_impl; [|apply of_str_scalar].
  intros c. unfold is_scalar_value, encodable. intros H.
  apply andb_prop in H. apply H.
Qed.

Lemma glyph_record_encodable (font : FreeTypeFont) (family : Py.text) (u : Z) :
  Forall (fun c => encodable c = true) (glyph_record font family u) <->
  Forall (fun c => encodable c = true) family /\ encodable u = true.
Proof.
  unfold glyph_record.
  destruct (baseline_aligned_cell font u) as [[bits w] h].
  unfold record_shape, TAB. rewrite !Forall_app. split.
  - intros H. decompose [and] H. split; [assumption|].
    match goal with Hu : Forall _ [u] |- _ => inversion Hu; assumption end.
  - intros [Hf Hu].
    repeat split;
      solve [apply of_str_encodable | exact Hf | repeat constructor; assumption].
Qed.

Lemma scalar_iff (u : Z) :
  is_scalar_value u = true <-> 0 <= u <= 0x10FFFF /\ encodable u = true.
Proof.
  unfold is_scalar_value, encodable.
  rewrite !andb_true_iff, Z.leb_le, Z.leb_le. tauto.
Qed.

(** X14.  The run succeeds exactly when the spec is accepted, every selected
    code point is a Unicode scalar value and, unless nothing is selected,
    the family name holds no surrogate.  Nothing else, neither the font nor
    the shape of a glyph, makes it fail. *)
Theorem main_succeeds (font : FreeTypeFont) (family : Py.text) (range : string) :
  (exists bytes, main font family range = Ok bytes) <->
  exists cps,
    parse_range range = Ok cps
    /\ Forall (fun u => is_scalar_value u = true) cps
    /\ (cps = [] \/ Forall (fun c => encodable c = true) family).
Proof.
  unfold main. split.
  - intros [bytes H].
    destruct (parse_range range) as [cps|]; cbn [bind] in H; [|discriminate].
    destruct (glyph_lines font family cps) as [lines|] eqn:Hl;
      cbn [bind] in H; [|discriminate].
    apply glyph_lines_succeeds in Hl. destruct Hl as [Hrange ->].
    assert (Henc : Forall (fun c => encodable c = true)
                     (Py.join_text [10] (map (glyph_record font family) cps)))
      by (apply encode_utf8_defined; eauto).
    apply join_text_Forall in Henc; [|repeat constructor].
    rewrite Forall_map in Henc.
    exists cps. split; [reflexivity|]. split.
    + rewrite Forall_forall in *. intros u Hu. apply scalar_iff.
      split; [apply Hrange; exact Hu|].
      apply (glyph_record_encodable font family u). apply Henc. exact Hu.
    + destruct cps as [|u cps]; [left; reflexivity | right].
      inversion Henc as [|? ? Hu _]; subst.
      apply (glyph_record_encodable font family u). exact Hu.
  - intros [cps [-> [Hcps Hfam]]]. cbn [bind].
    rewrite (glyph_lines_value font family cps)
      by (eapply Forall_impl; [|exact Hcps]; apply scalar_in_range).
    cbn [bind]. apply encode_utf8_defined.
    apply join_text_Forall; [repeat constructor|].
    rewrite Forall_map. rewrite Forall_forall in *. intros u Hu.
    apply glyph_record_encodable.
    destruct Hfam as [-> | Hfam]; [contradiction|].
    split; [rewrite Forall_forall; exact Hfam|].
    apply scalar_iff. apply Hcps. exact Hu.
Qed.

(** ** The lines of the output file *)

Lemma of_str_chars (s : string) : Py.of_str s = map Py.code (chars s).
Proof. reflexivity. Qed.

Lemma str_chars (n : Z) :
  Forall (fun c => 45 <= Py.code c <= 122) (chars (Py.str n)).
Proof.
  assert (Hd : forall m, 0 <= m ->
            Forall (fun c => 45 <= Py.code c <= 122) (chars (Py.digits 10 m))).
  { intros m Hm. eapply Forall_impl; [|apply (digits_chars 10 m); lia].
    intros c Hc. cbv beta in *. lia. }
  unfold Py.str. destruct (n <? 0) eqn:E.
  - apply Z.ltb_lt in E.
    change ("-" ++ Py.digits 10 (- n))%string with (String "-" (Py.digits 10 (- n))).
    constructor; [split; apply Z.leb_le; reflexivity|]. apply Hd. lia.
  - apply Z.ltb_ge in E. apply Hd. exact E.
Qed.

Lemma join_chars (P : ascii -> Prop) (sep : string) (toks : list string) :
  Forall P (chars sep) ->
  Forall (fun tok => Forall P (chars tok)) toks ->
  Forall P (chars (Py.join sep toks)).
Proof.
  intros Hsep. induction 1 as [|tok toks Htok Hall IH]; [constructor|].
  destruct toks as [|tok2 toks]; [exact Htok|].
  change (Py.join sep (tok :: tok2 :: toks))
    with (tok ++ sep ++ Py.join sep (tok2 :: toks))%string.
  rewrite !chars_app, !Forall_app. auto.
Qed.

Lemma packed_columns_nonneg (bits : ndarray) :
  Forall (fun n => 0 <= n) (packed_columns bits).
Proof.
  apply Forall_forall. intros n Hn. unfold packed_columns in Hn.
  apply in_map_iff in Hn. destruct Hn as [x [<- _]]. apply binary_value_bound.
Qed.

(** Apart from the TAB in front, the family name and the character of the
    annotation, a record is made of printable ASCII characters. *)
Lemma glyph_record_chars (Q : Z -> Prop) (font : FreeTypeFont)
    (family : Py.text) (u : Z) :
  (forall c, 32 <= c <= 126 -> Q c) -> Q 9 -> Forall Q family -> Q u ->
  0 <= u -> Forall Q (glyph_record font family u).
Proof.
  intros Hprint Htab Hfam Hu Hpos.
  assert (Hstr : forall s, Forall (fun c => 32 <= Py.code c <= 126) (chars s) ->
                           Forall Q (Py.of_str s)).
  { intros s Hs. rewrite of_str_chars, Forall_map.
    eapply Forall_impl; [|exact Hs]. intros c Hc. apply Hprint. exact Hc. }
  assert (Hlit : forall s, forallb (fun c => (32 <=? Py.code c) && (Py.code c <=? 126))
                                   (chars s) = true -> Forall Q (Py.of_str s)).
  { intros s Hs. apply Hstr. rewrite forallb_forall in Hs.
    apply Forall_forall. intros c Hc. specialize (Hs c Hc). lia. }
  assert (Hhex : forall n, 0 <= n ->
                   Forall (fun c => 32 <= Py.code c <= 126) (chars (hex_literal n))).
  { intros n Hn. eapply Forall_impl; [|apply hex_literal_chars; exact Hn].
    intros c Hc. cbv beta in *. lia. }
  assert (Hnum : forall n, Forall Q (Py.of_str (Py.str n))).
  { intros n. apply Hstr. eapply Forall_impl; [|apply str_chars].
    intros c Hc. cbv beta in *. lia. }
  unfold glyph_record.
  destruct (baseline_aligned_cell font u) as [[bits w] h].
  unfold record_shape, TAB. rewrite !Forall_app.
  repeat split;
    try solve [exact Hfam | apply Hnum | apply Hlit; reflexivity
               | apply Hstr; apply Hhex; exact Hpos
               | repeat constructor; assumption].
  apply Hstr. apply join_chars.
  - repeat constructor; cbv; discriminate.
  - apply Forall_forall. intros tok Htok. apply in_map_iff in Htok.
    destruct Htok as [n [<- Hn]]. apply Hhex.
    pose proof (packed_columns_nonneg bits) as Hall.
    rewrite Forall_forall in Hall. apply Hall. exact Hn.
Qed.

Lemma Ok_inj {A} (a b : A) : Ok a = Ok b -> a = b.
Proof. intros H. injection H as H. exact H. Qed.

Lemma high_bytes_no_newline (bs : list Z) :
  Forall (fun b => 128 <= b) bs -> ~ In 10 bs.
Proof.
  intros H Hin. rewrite Forall_forall in H. specialize (H 10 Hin). lia.
Qed.

Lemma utf8_char_newlines (c : Z) (bs : list Z) :
  Py.utf8_char c = Ok bs ->
  count_occ Z.eq_dec bs 10 = count_occ Z.eq_dec [c] 10.
Proof.
  unfold Py.utf8_char.
  destruct (c <? 128) eqn:E1; [intros [= <-]; reflexivity|].
  apply Z.ltb_ge in E1.
  assert (Hc : count_occ Z.eq_dec [c] 10 = O).
  { apply count_occ_not_In. intros [H | []]. lia. }
  rewrite Hc. intros H. apply count_occ_not_In. apply high_bytes_no_newline.
  destruct (c <? 2048);
    [|destruct ((55296 <=? c) && (c <=? 57343)); [discriminate|];
      destruct (c <? 65536)];
    apply Ok_inj in H; subst bs;
    repeat (constructor; [Z.div_mod_to_equations; lia|]); constructor.
Qed.

Lemma encode_utf8_newlines (t : Py.text) (bytes : list Z) :
  Py.encode_utf8 t = Ok bytes ->
  count_occ Z.eq_dec bytes 10 = count_occ Z.eq_dec t 10.
Proof.
  unfold Py.encode_utf8.
  destruct (for_each Py.utf8_char t) as [bss|] eqn:H; cbn [bind]; [|discriminate].
  intros [= <-]. revert bss H.
  induction t as [|c t IH]; intros bss H; cbn [for_each] in H.
  - injection H as <-. reflexivity.
  - destruct (Py.utf8_char c) as [bs|] eqn:Hc; cbn [bind] in H; [|discriminate].
    destruct (for_each Py.utf8_char t) as [bss'|]; cbn [bind] in H; [|discriminate].
    injection H as <-. cbn [List.concat].
    rewrite count_occ_app, (utf8_char_newlines c bs Hc), (IH bss' eq_refl).
    change (c :: t) with ([c] ++ t)%list. rewrite count_occ_app. reflexivity.
Qed.

Lemma join_text_newlines (lines : list Py.text) :
  Forall (fun line => ~ In 10 line) lines ->
  count_occ Z.eq_dec (Py.join_text [10] lines) 10 = pred (List.length lines).
Proof.
  induction 1 as [|x l Hx Hl IH]; [reflexivity|].
  destruct l as [|y l].
  - cbn [Py.join_text List.length pred]. apply count_occ_not_In. exact Hx.
  - change (Py.join_text [10] (x :: y :: l))
      with (x ++ [10] ++ Py.join_text [10] (y :: l))%list.
    rewrite !count_occ_app, IH.
    replace (count_occ Z.eq_dec x 10) with O
      by (symmetry; apply count_occ_not_In; exact Hx).
    reflexivity.
Qed.

(** X15.  One record per line: when the run succeeds, no selected code
    point is the line feed and the family name holds none, the file has as
    many lines as code points were selected: the line feeds in it are one
    less than the code points, those that separate the records. *)
Theorem one_record_per_line (font : FreeTypeFont) (family : Py.text)
    (range : string) (cps bytes : list Z) :
  parse_range range = Ok cps ->
  main font family range = Ok bytes ->
  ~ In 10 family -> ~ In 10 cps ->
  count_occ Z.eq_dec bytes 10 = pred (List.length cps).
Proof.
  intros Hparse Hmain Hfam Hcps. unfold main in Hmain.
  rewrite Hparse in Hmain. cbn [bind] in Hmain.
  destruct (glyph_lines font family cps) as [lines|] eqn:Hl;
    cbn [bind] in Hmain; [|discriminate].
  apply glyph_lines_succeeds in Hl. destruct Hl as [Hrange ->].
  rewrite (encode_utf8_newlines _ _ Hmain), join_text_newlines.
  - rewrite length_map. reflexivity.
  - rewrite Forall_map. rewrite Forall_forall in *. intros u Hu.
    assert (Hrec : Forall (fun c => c <> 10) (glyph_record font family u)).
    { apply glyph_record_chars.
      - intros c Hc. lia.
      - discriminate.
      - apply Forall_forall. intros c Hc E. subst c. contradiction.
      - intros E. subst u. contradiction.
      - apply Hrange. exact Hu. }
    rewrite Forall_forall in Hrec. intros Hin. apply (Hrec 10 Hin). reflexivity.
Qed.

Lemma one_record_per_line_witness :
  exists bytes,
    main demo_font (Py.of_str "Fam") "0x41-0x43" = Ok bytes
    /\ count_occ Z.eq_dec bytes 10 = 2%nat.
Proof.
  eexists. split; [reflexivity|].
  apply (one_record_per_line demo_font (Py.of_str "Fam") "0x41-0x43"
           [0x41; 0x42; 0x43]).
  - reflexivity.
  - reflexivity.
  - cbv. intuition discriminate.
  - cbv. intuition discriminate.
Defined.

(* ================================================================= *)
(** * The family name and the default output name *)

Lemma map_chars_length (f : ascii -> ascii) (s : string) :
  String.length (map_chars f s) = String.length s.
Proof. induction s as [|c s IH]; simpl; [reflexivity | now rewrite IH]. Qed.

Lemma map_chars_chars (f : ascii -> ascii) (s : string) :
  chars (map_chars f s) = map f (chars s).
Proof. induction s as [|c s IH]; simpl; [reflexivity | now rewrite <- IH]. Qed.

Lemma map_chars_fixed (f : ascii -> ascii) (s : string) :
  map_chars f s = s <-> Forall (fun c => f c = c) (chars s).
Proof.
  induction s as [|c s IH]; simpl; [split; [constructor | reflexivity]|].
  split.
  - intros H. injection H as Hc Hs. constructor; [exact Hc | apply IH; exact Hs].
  - intros H. inversion H as [|? ? Hc Hs]; subst.
    rewrite Hc. f_equal. apply IH. exact Hs.
Qed.

Lemma sanitize_char_fixed (c : ascii) :
  (if isalnum c then c else "_"%char) = c <-> isalnum c = true \/ c = "_"%char.
Proof.
  destruct (isalnum c) eqn:E.
  - split; auto.
  - split; [intros <-; auto | intros [H | ->]; [discriminate | reflexivity]].
Qed.

Lemma sanitize_family_alphabet (font_path : string) :
  Forall (fun c => isalnum c = true \/ c = "_"%char)
         (chars (sanitize_family font_path)).
Proof.
  unfold sanitize_family. rewrite map_chars_chars, Forall_map.
  apply Forall_forall. intros c _.
  destruct (isalnum c) eqn:E; [left; exact E | right; reflexivity].
Qed.

Lemma word_free (sep : ascii) (s : string) :
  isalnum sep = false -> sep <> "_"%char ->
  Forall (fun c => isalnum c = true \/ c = "_"%char) (chars s) ->
  Py.contains sep s = false.
Proof.
  intros Hsep Hu Hall. apply contains_chars.
  eapply Forall_impl; [|exact Hall].
  intros c [Hc | ->] E; [subst c; congruence | auto].
Qed.

Lemma rfind_absent (c : ascii) (s : string) :
  Py.contains c s = false -> rfind c s = -1.
Proof.
  induction s as [|d s IH]; simpl; [reflexivity|].
  destruct (Ascii.eqb d c); [discriminate|].
  intros H. rewrite (IH H). reflexivity.
Qed.

(** The name of a path without a separator is the path itself, unless it is
    empty or the single dot. *)
Lemma path_name_bare (p : string) :
  Py.contains "/" p = false -> is_path_part p = true -> path_name p = p.
Proof.
  intros Hsep Hpart. unfold path_name.
  rewrite split_absent by exact Hsep. simpl. rewrite Hpart. reflexivity.
Qed.

Lemma path_stem_word (r : string) :
  Forall (fun c => isalnum c = true \/ c = "_"%char) (chars r) ->
  path_stem r = r.
Proof.
  intros Hall.
  assert (Hslash : Py.contains "/" r = false)
    by (apply word_free; [reflexivity | discriminate | exact Hall]).
  assert (Hdot : Py.contains "." r = false)
    by (apply word_free; [reflexivity | discriminate | exact Hall]).
  assert (Hname : path_name r = r).
  { destruct r as [|c r]; [reflexivity|].
    apply path_name_bare; [exact Hslash|].
    unfold is_path_part. simpl.
    destruct (Ascii.eqb c ".") eqn:E; [|reflexivity].
    simpl in Hdot. rewrite E in Hdot. discriminate. }
  unfold path_stem. rewrite Hname, (rfind_absent "." r Hdot). reflexivity.
Qed.

(** X16.  The family name derived from a font path is as long as the stem
    of the path and holds only alphanumeric characters and underscores;
    hence no path separator, dot, hyphen, comma, blank or line feed.
    Nothing more is promised: it is empty when the stem is, and starts with
    a digit when the stem does. *)
Theorem sanitize_family_word (font_path : string) :
  String.length (sanitize_family font_path) = String.length (path_stem font_path)
  /\ Forall (fun c => isalnum c = true \/ c = "_"%char)
            (chars (sanitize_family font_path))
  /\ (forall sep, In sep ["/"; "."; "-"; ","; " "; "010"]%char ->
        Py.contains sep (sanitize_family font_path) = false).
Proof.
  split; [apply map_chars_length|].
  split; [apply sanitize_family_alphabet|].
  intros sep Hsep. apply word_free; [| |apply sanitize_family_alphabet];
    cbn [In] in Hsep; intuition (subst; try reflexivity; try discriminate).
Qed.

(** X17.  The names that [sanitize_family] leaves as they are are exactly
    those made of alphanumeric characters and underscores; so sanitizing
    twice is sanitizing once. *)
Theorem sanitize_family_idempotent (name font_path : string) :
  (sanitize_family name = name <->
   Forall (fun c => isalnum c = true \/ c = "_"%char) (chars name))
  /\ sanitize_family (sanitize_family font_path) = sanitize_family font_path.
Proof.
  assert (Hfix : forall r,
            Forall (fun c => isalnum c = true \/ c = "_"%char) (chars r) ->
            sanitize_family r = r).
  { intros r Hall. unfold sanitize_family. rewrite (path_stem_word r Hall).
    apply map_chars_fixed. eapply Forall_impl; [|exact Hall].
    intros c. apply sanitize_char_fixed. }
  split; [split|].
  - intros H. rewrite <- H. apply sanitize_family_alphabet.
  - apply Hfix.
  - apply Hfix. apply sanitize_family_alphabet.
Qed.

Lemma string_app_assoc (a b c : string) :
  ((a ++ b) ++ c = a ++ (b ++ c))%string.
Proof. induction a as [|d a IH]; simpl; [reflexivity | now rewrite IH]. Qed.

Lemma str_chars_precise (n : Z) :
  Forall (fun c => Py.code c = 45 \/ 48 <= Py.code c <= 122) (chars (Py.str n)).
Proof.
  assert (Hd : forall m, 0 <= m ->
            Forall (fun c => Py.code c = 45 \/ 48 <= Py.code c <= 122)
                   (chars (Py.digits 10 m))).
  { intros m Hm. eapply Forall_impl; [|apply (digits_chars 10 m); lia].
    intros c Hc. right. exact Hc. }
  unfold Py.str. destruct (n <? 0) eqn:E.
  - apply Z.ltb_lt in E.
    change ("-" ++ Py.digits 10 (- n))%string with (String "-" (Py.digits 10 (- n))).
    constructor; [left; reflexivity|]. apply Hd. lia.
  - apply Z.ltb_ge in E. apply Hd. exact E.
Qed.

(** X18.  The default output path is a bare file name, whatever directory
    the font is in and whatever the size: it holds no path separator, it is
    its own last component, and it is the family name followed by
    [_glyphs_<size>px.txt]. *)
Theorem default_out_bare (font : string) (size : Z) :
  Py.contains "/" (default_out font size) = false
  /\ path_name (default_out font size) = default_out font size
  /\ path_stem (default_out font size) =
     (sanitize_family font ++ "_glyphs_" ++ Py.str size ++ "px")%string.
Proof.
  assert (Hfam : forall sep, isalnum sep = false -> sep <> "_"%char ->
            Py.contains sep (sanitize_family font) = false).
  { intros sep H1 H2. apply word_free; [exact H1 | exact H2|].
    apply sanitize_family_alphabet. }
  assert (Hnum : forall sep, Py.code sep <> 45 -> Py.code sep < 48 ->
            Py.contains sep (Py.str size) = false).
  { intros sep H1 H2. apply contains_chars.
    eapply Forall_impl; [|apply str_chars_precise].
    intros c Hc E. subst c. lia. }
  assert (Hslash : Py.contains "/" (default_out font size) = false).
  { unfold default_out. rewrite !contains_app.
    rewrite Hfam, Hnum; try reflexivity; discriminate. }
  assert (Hname : path_name (default_out font size) = default_out font size).
  { apply path_name_bare; [exact Hslash|].
    assert (Hu : Py.contains "_" (default_out font size) = true).
    { unfold default_out. rewrite !contains_app. simpl. apply orb_true_r. }
    unfold is_path_part.
    destruct (default_out font size) as [|c [|d r]]; [discriminate| |].
    - simpl in Hu. destruct (Ascii.eqb c "_") eqn:E; [|discriminate].
      apply Ascii.eqb_eq in E. subst c. reflexivity.
    - simpl. destruct (Ascii.eqb c "."); reflexivity. }
  split; [exact Hslash|]. split; [exact Hname|].
  unfold path_stem. rewrite Hname.
  set (base := (sanitize_family font ++ "_glyphs_" ++ Py.str size ++ "px")%string).
  assert (Hout : default_out font size = (base ++ ".txt")%string).
  { unfold default_out, base. rewrite !string_app_assoc. reflexivity. }
  rewrite Hout.
  assert (Hr : forall b, rfind "." (b ++ ".txt") = Z.of_nat (String.length b)).
  { induction b as [|c b IH]; [reflexivity|].
    cbn [append rfind String.length]. rewrite IH.
    destruct (0 <=? Z.of_nat (String.length b)) eqn:E; [lia|].
    apply Z.leb_gt in E. lia. }
  assert (Hl : forall b, String.length (b ++ ".txt") = (String.length b + 4)%nat).
  { induction b as [|c b IH]; [reflexivity|]. simpl. rewrite IH. reflexivity. }
  assert (Hs : forall b, substring 0 (String.length b) (b ++ ".txt") = b).
  { induction b as [|c b IH]; [reflexivity|]. simpl. rewrite IH. reflexivity. }
  rewrite Hr, Hl, Nat2Z.id, Hs.
  assert (Hpos : (0 < String.length base)%nat).
  { unfold base. destruct (sanitize_family font); simpl; lia. }
  replace (0 <? Z.of_nat (String.length base)) with true
    by (symmetry; apply Z.ltb_lt; lia).
  replace (Z.of_nat (String.length base)
           <? Z.of_nat (String.length base + 4) - 1) with true
    by (symmetry; apply Z.ltb_lt; lia).
  reflexivity.
Qed.

Example default_out_demo :
  default_out "../fonts/Fira Code-Light.ttf" 12 = "Fira_Code_Light_glyphs_12px.txt".
Proof. reflexivity. Qed.

(* ================================================================= *)
(** * More on hyphens, and the end of the file *)

Lemma count_two_inner (tok : string) :
  (2 <= Py.count "-" tok)%nat -> inner_hyphen tok = true.
Proof.
  induction tok as [|c tok IH]; simpl; [lia|].
  destruct (Ascii.eqb c "-") eqn:E.
  - destruct (eqb_hyphen_cases c E) as [-> _]. intros H.
    rewrite contains_count. destruct (Py.count "-" tok); [lia | reflexivity].
  - intros H. destruct (Py.int_isspace c); [apply IH; exact H|].
    rewrite contains_count. destruct (Py.count "-" tok); [lia | reflexivity].
Qed.

(** X19.  A spec without a comma that holds two hyphens or more is always
    rejected with [ValueError]: several intervals, or an interval with a
    negative bound, cannot be written. *)
Theorem two_hyphens_rejected (range : string) :
  (2 <= Py.count "-" range)%nat -> Py.contains "," range = false ->
  parse_range range = Raise ValueError.
Proof.
  intros Hcount Hcomma.
  pose proof (count_two_inner range Hcount) as Hinner.
  rewrite list_form.
  - rewrite (split_absent "," range Hcomma). cbn [filter].
    rewrite (hyphen_not_blank range (inner_hyphen_contains range Hinner)).
    cbn [negb for_each]. rewrite (int_inner_hyphen range 0 Hinner). reflexivity.
  - unfold is_interval.
    replace (Py.count "-" range =? 1)%nat with false
      by (symmetry; apply Nat.eqb_neq; lia).
    rewrite andb_false_r. reflexivity.
Qed.

Lemma two_hyphens_rejected_witness :
  parse_range "0x21-0x2F-0x7E" = Raise ValueError
  /\ parse_range "-5-5" = Raise ValueError.
Proof.
  split.
  - apply (two_hyphens_rejected "0x21-0x2F-0x7E"); [simpl; lia | reflexivity].
  - apply (two_hyphens_rejected "-5-5"); [simpl; lia | reflexivity].
Defined.

Lemma for_each_app {A B} (f : A -> result B) (a b : list A) (ys : list B) :
  for_each f (a ++ b) = Ok ys ->
  exists ya yb, for_each f a = Ok ya /\ for_each f b = Ok yb
                /\ ys = (ya ++ yb)%list.
Proof.
  revert ys. induction a as [|x a IH]; intros ys H.
  - exists [], ys. auto.
  - cbn [app for_each] in *.
    destruct (f x) as [y|]; cbn [bind] in *; [|discriminate].
    destruct (for_each f (a ++ b)) as [zs|] eqn:Hz; cbn [bind] in *; [|discriminate].
    apply Ok_inj in H. subst ys.
    destruct (IH zs eq_refl) as [ya [yb [Ha [Hb ->]]]].
    rewrite Ha. cbn [bind]. exists (y :: ya), yb. auto.
Qed.

Lemma glyph_record_end (font : FreeTypeFont) (family : Py.text) (u : Z) :
  exists body, glyph_record font family u = (body ++ [39])%list.
Proof.
  unfold glyph_record.
  destruct (baseline_aligned_cell font u) as [[bits w] h].
  unfold record_shape. change (Py.of_str "'") with [39].
  rewrite !app_assoc. eexists. reflexivity.
Qed.

Lemma join_text_end (sep : Py.text) (lines : list Py.text) (c : Z) :
  lines <> [] ->
  Forall (fun line => exists body, line = (body ++ [c])%list) lines ->
  exists body, Py.join_text sep lines = (body ++ [c])%list.
Proof.
  induction lines as [|x l IH]; intros Hne Hall;
    [exfalso; apply Hne; reflexivity|].
  inversion Hall as [|? ? [bx Hx] Hl]; subst.
  destruct l as [|y l]; [exists bx; reflexivity|].
  destruct IH as [body Hbody]; [discriminate | exact Hl|].
  change (Py.join_text sep ((bx ++ [c])%list :: y :: l))
    with ((bx ++ [c]) ++ sep ++ Py.join_text sep (y :: l))%list.
  rewrite Hbody. exists ((bx ++ [c]) ++ sep ++ body)%list.
  rewrite <- !app_assoc. reflexivity.
Qed.

(** X20.  When the run succeeds and selects something, the file ends with
    the quote that closes the annotation of the last record: no line feed
    follows the last record. *)
Theorem no_trailing_newline (font : FreeTypeFont) (family : Py.text)
    (range : string) (cps bytes : list Z) :
  parse_range range = Ok cps -> cps <> [] ->
  main font family range = Ok bytes ->
  exists body, bytes = (body ++ [39])%list.
Proof.
  intros Hparse Hne Hmain. unfold main in Hmain.
  rewrite Hparse in Hmain. cbn [bind] in Hmain.
  destruct (glyph_lines font family cps) as [lines|] eqn:Hl;
    cbn [bind] in Hmain; [|discriminate].
  apply glyph_lines_succeeds in Hl. destruct Hl as [_ ->].
  destruct (join_text_end [10] (map (glyph_record font family) cps) 39)
    as [t Ht].
  - destruct cps; [congruence | discriminate].
  - rewrite Forall_map. apply Forall_forall. intros u _.
    apply glyph_record_end.
  - rewrite Ht in Hmain. unfold Py.encode_utf8 in Hmain.
    destruct (for_each Py.utf8_char (t ++ [39])) as [bss|] eqn:Hb;
      cbn [bind] in Hmain; [|discriminate].
    apply Ok_inj in Hmain. subst bytes.
    destruct (for_each_app _ _ _ _ Hb) as [ya [yb [_ [Hyb ->]]]].
    cbn in Hyb. apply Ok_inj in Hyb. subst yb.
    rewrite concat_app. exists (List.concat ya). reflexivity.
Qed.

Lemma no_trailing_newline_witness :
  exists body bytes,
    main demo_font (Py.of_str "Fam") "0x41,0x42" = Ok bytes
    /\ bytes = (body ++ [39])%list.
Proof.
  destruct (no_trailing_newline demo_font (Py.of_str "Fam") "0x41,0x42"
              [0x41; 0x42]
              match main demo_font (Py.of_str "Fam") "0x41,0x42" with
              | Ok b => b
              | Raise _ => []
              end eq_refl ltac:(discriminate) eq_refl) as [body Hbody].
  exists body. eexists. split; [reflexivity | exact Hbody].
Defined.

(* ================================================================= *)
(** * The packed glyphs of a run *)

Lemma glyph_lines_in_range (font : FreeTypeFont) (family : Py.text)
    (cps : list Z) :
  forall lines, glyph_lines font family cps = Ok lines ->
                Forall (fun u => 0 <= u <= 0x10FFFF) cps.
Proof.
  unfold glyph_lines. induction cps as [|u cps IH]; intros lines H;
    [constructor|].
  cbn [for_each] in H.
  destruct (Py.chr u) as [c|] eqn:Hc; cbn [bind] in H; [|discriminate].
  destruct (chr_value u c Hc) as [_ Hu].
  constructor; [exact Hu|].
  destruct (let '(bits, w, h) := baseline_aligned_cell font c in
            emit_setglyph_line family u bits w h); cbn [bind] in H;
    [|discriminate].
  destruct (for_each _ cps) as [ls|] eqn:Hls; cbn [bind] in H; [|discriminate].
  apply (IH ls). reflexivity.
Qed.

Lemma glyph_record_packed (font : FreeTypeFont) (family : Py.text) (u : Z) :
  0 <= u <= 0x10FFFF ->
  packed_glyph_line font family u (glyph_record font family u).
Proof.
  intros Hu. unfold packed_glyph_line, glyph_record.
  pose proof (cell_shape font u) as Hshape.
  destruct (baseline_aligned_cell font u) as [[bits W] H].
  destruct Hshape as [H0 [H1 _]].
  exists bits, W, H. split; [reflexivity|].
  split; [apply emit_setglyph_line_shape; exact Hu|].
  split; [reflexivity|]. split.
  - unfold packed_columns. rewrite length_map, length_seq. exact H1.
  - apply Forall_forall. intros n Hn.
    unfold packed_columns in Hn. apply in_map_iff in Hn.
    destruct Hn as [x [<- _]].
    pose proof (binary_value_bound (column bits x)) as Hb.
    rewrite column_length, H0 in Hb.
    split; [exact Hb | apply int_hex_literal; lia].
Qed.

(** C7.  Whenever the loop of [main] goes through, each line it produced is
    the record of the packed glyph of its code point, in the order of the
    selection: the line that [emit_setglyph_line] returns on the cell of the
    character, with as many column integers as the width it prints, every
    one of them in [[0, 2^height)] for the height it prints. *)
Theorem columns_width_and_range (font : FreeTypeFont) (family : Py.text)
    (cps : list Z) (lines : list Py.text) :
  glyph_lines font family cps = Ok lines ->
  Forall2 (packed_glyph_line font family) cps lines.
Proof.
  intros H. pose proof (glyph_lines_in_range font family cps lines H) as Hall.
  rewrite (glyph_lines_value font family cps Hall) in H.
  apply Ok_inj in H. subst lines.
  induction Hall as [|u cps Hu Hall IH]; cbn [map]; constructor.
  - apply glyph_record_packed. exact Hu.
  - exact IH.
Qed.

Lemma columns_width_and_range_witness :
  Forall2 (packed_glyph_line demo_font (Py.of_str "Fam")) [0x41; 0x20AC]
          (map (glyph_record demo_font (Py.of_str "Fam")) [0x41; 0x20AC]).
Proof.
  apply (columns_width_and_range demo_font (Py.of_str "Fam") [0x41; 0x20AC]).
  reflexivity.
Defined.
